(** * ThrusterTestBench: the waveform cache, the packet framer and the
      transmission scheduler of [TestBenchGUI/testbench.py]

    A shallow embedding of the [ThrusterGUI] controller.  The Qt widgets are
    left out; what is kept is every attribute the serial protocol reads or
    writes, the serial line as a log of [write] calls, and the timer as a
    flag with its interval.

    Numbers.  Python [int]s are [Z].  Waypoint times and interpolated samples
    are Python/numpy floats; they are taken here as exact rationals ([Q],
    kept in lowest terms), with [nan] and the two infinities added for the
    samples that scipy returns.  The scipy curve builders ([interp1d],
    [BarycentricInterpolator]) are not code of this repository and are
    parameters of the development. *)

From Stdlib Require Import ZArith QArith Qround List Bool String Lia Lqa
  Sorted.
Import ListNotations.
Open Scope Z_scope.

(** ** The CRC engine ([crc8], testbench.py 346-360) *)

Module CRC.

Definition polynomial : Z := 0x07.

(** One pass of the inner [for _ in range(8)] body. *)
Definition crc8_bit (crc : Z) : Z :=
  let crc :=
    if Z.eqb (Z.land crc 0x80) 0
    then Z.shiftl crc 1
    else Z.lxor (Z.shiftl crc 1) polynomial in
  Z.land crc 0xFF.

(** One pass of the outer [for byte in data] body. *)
Definition crc8_byte (crc byte : Z) : Z :=
  Nat.iter 8 crc8_bit (Z.lxor crc byte).

Definition crc8 (data : list Z) : Z :=
  fold_left crc8_byte data 0x00.

Definition is_byte (b : Z) : Prop := 0 <= b < 256.

End CRC.

(** The reference CRC-8 of the specification, written on an eight-place
    register of bits, most significant bit first: each input octet is XOR-ed
    into the register; then, eight times, the register is shifted left by
    one place (the bit that leaves is the top bit, a zero enters on the
    right, which keeps the register at eight bits) and the polynomial 0x07
    is XOR-ed in exactly when the top bit was set. *)

Module CRCRef.

Definition register := list bool.

Definition octet_bits (z : Z) : register :=
  map (Z.testbit z) [7; 6; 5; 4; 3; 2; 1; 0].

Definition bits_octet (r : register) : Z :=
  fold_left (fun acc (b : bool) => 2 * acc + (if b then 1 else 0)) r 0.

Fixpoint xor_bits (a b : register) : register :=
  match a, b with
  | x :: a', y :: b' => xorb x y :: xor_bits a' b'
  | _, _ => []
  end.

Definition init : register := octet_bits 0x00.
Definition poly : register := octet_bits 0x07.

Definition top_bit (r : register) : bool := hd false r.
Definition shift_left (r : register) : register := tl r ++ [false].

Definition shift_step (r : register) : register :=
  if top_bit r then xor_bits (shift_left r) poly else shift_left r.

Definition absorb (r : register) (octet : Z) : register :=
  Nat.iter 8 shift_step (xor_bits r (octet_bits octet)).

Definition crc8_reference (data : list Z) : Z :=
  bits_octet (fold_left absorb data init).

End CRCRef.

(** ** Python values and failures *)

(** The exceptions the modelled code can raise. *)
Inductive exn : Type :=
| ValueError | ConnectionError | IndexError | AttributeError
| SerialException | ZeroDivisionError | StructError | UnboundLocalError
| OverflowError | KeyError | FileNotFoundError.

Inductive result (A : Type) : Type :=
| Ok (a : A)
| Raise (e : exn).
Arguments Ok {A} a.
Arguments Raise {A} e.

(** A numpy float64 sample: a finite value, an infinity, or nan. *)
Inductive npfloat : Type :=
| Fin (q : Q)
| PInf
| NInf
| NaN.

Module Py.

Definition Qltb (x y : Q) : bool := negb (Qle_bool y x).

(** [int(x)] on a float: truncation toward zero. *)
Definition int (x : Q) : Z := Z.quot (Qnum x) (Zpos (Qden x)).

(** [round(x)] on a float: to the nearest integer, ties to the even one. *)
Definition round (x : Q) : Z :=
  let f := Qfloor x in
  match Qcompare (x - inject_Z f) (1 # 2) with
  | Lt => f
  | Gt => f + 1
  | Eq => if Z.even f then f else f + 1
  end.

(** [max(times)] on a non-empty tuple: the first of the greatest. *)
Definition max (times : list Q) : Q :=
  match times with
  | [] => 0%Q
  | t :: rest => fold_left (fun m x => if Qltb m x then x else m) rest t
  end.

(** [int(y)] on a numpy sample ([get_pwms]). *)
Definition int_sample (y : npfloat) : result Z :=
  match y with
  | Fin q => Ok (int q)
  | PInf | NInf => Raise OverflowError
  | NaN => Raise ValueError
  end.

(** [np.clip(y, lo, hi)] on one sample; nan stays nan. *)
Definition clip (lo hi : Q) (y : npfloat) : npfloat :=
  match y with
  | Fin q => Fin (if Qltb q lo then lo else if Qltb hi q then hi else q)
  | PInf => Fin hi
  | NInf => Fin lo
  | NaN => NaN
  end.

(** [np.linspace(start, stop, num)], end point included. *)
Definition linspace (start stop : Q) (num : Z) : result (list Q) :=
  if num <? 0 then Raise ValueError
  else if num =? 1 then Ok [start]
  else
    let step := ((stop - start) / inject_Z (num - 1))%Q in
    Ok (map (fun i => Qred (start + inject_Z (Z.of_nat i) * step))
            (seq 0 (Z.to_nat num))).

(** One [H] item of [struct.pack('<8H', ...)]: two octets, low one first. *)
Definition le_uint16 (v : Z) : list Z :=
  [Z.land v 0xFF; Z.land (Z.shiftr v 8) 0xFF].

(** [struct.pack('<8H', *values)]: every item must fit sixteen bits. *)
Definition pack_8H (values : list Z) : result (list Z) :=
  if negb (Nat.eqb (List.length values) 8) then Raise StructError
  else if forallb (fun v => (0 <=? v) && (v <=? 0xFFFF)) values
  then Ok (flat_map le_uint16 values)
  else Raise StructError.

(** [struct.pack('<B', value)]. *)
Definition pack_B (v : Z) : result (list Z) :=
  if (0 <=? v) && (v <=? 0xFF) then Ok [v] else Raise StructError.

(** [zip] of the starred waypoint list, unpacked into two names: it fails
    on an empty list. *)
Definition unzip_points (points : list (Q * Z)) : result (list Q * list Z) :=
  match points with
  | [] => Raise ValueError
  | _ => Ok (map fst points, map snd points)
  end.

(** [str(i)] for the channel indices. *)
Definition str (i : nat) : string :=
  match i with
  | 0%nat => "0" | 1%nat => "1" | 2%nat => "2" | 3%nat => "3"
  | 4%nat => "4" | 5%nat => "5" | 6%nat => "6" | 7%nat => "7"
  | _ => "?"
  end%string.

(** [d.get(key, default)] on a dict kept as an association list. *)
Fixpoint dict_get {A} (d : list (string * A)) (key : string) (default : A) : A :=
  match d with
  | [] => default
  | (k, v) :: d' => if String.eqb k key then v else dict_get d' key default
  end.

End Py.

(** ** Constants and the controller's attributes *)

Definition PWM_MIN : Z := 1100.
Definition PWM_MAX : Z := 1900.
Definition THRUSTER_COUNT : nat := 8.
Definition DEFAULT_FREQUENCY : Z := 20.
Definition DEFAULT_BAUD : Z := 115200.

Definition waypoint : Type := (Q * Z)%type.

(** The persisted sequence: what [json.load] gives back for a file written
    by [json_save_sequence].  A key that is absent is [None]; the keys of
    [thruster_data] are strings, as JSON object keys are. *)
Record snapshot : Type := mkSnapshot {
  interpolation_method : option string;
  frequency : option Z;
  thruster_data : option (list (string * list waypoint))
}.

(** The attributes of [ThrusterGUI] the protocol code uses.  [serial_conn]
    is [None] or an object with its [is_open] flag; [wire] logs the
    arguments of the [write] calls that reached the port, oldest first;
    [port_openable] says whether the operating system lets
    [serial.Serial(port, baud)] open the selected device, and [files] is
    the file system seen by save and load.  [max_time] and [com_step] are
    created by [compute_max_time] and [serial_start], before the timer can
    fire; [com_step] starts at zero and is only ever incremented. *)
Record ThrusterGUI : Type := mkGUI {
  selected_interpolation : string;
  baud_rate : Z;
  serial_port : option string;
  output_frequency : Z;
  cached_pwms : list (list Q * list npfloat);
  timer_active : bool;
  timer_interval : Z;
  serial_conn : option bool;
  serial_status : Z;
  points : list (list waypoint);
  max_time : Q;
  com_step : nat;
  port_openable : bool;
  wire : list (list Z);
  files : list (string * snapshot)
}.

(** [ThrusterGUI.__init__], for a given environment. *)
Definition init (openable : bool) (fs : list (string * snapshot)) : ThrusterGUI :=
  {| selected_interpolation := "linear";
     baud_rate := DEFAULT_BAUD;
     serial_port := None;
     output_frequency := DEFAULT_FREQUENCY;
     cached_pwms := repeat ([], []) 8;
     timer_active := false;
     timer_interval := 0;
     serial_conn := None;
     serial_status := 0;
     points := repeat [] THRUSTER_COUNT;
     max_time := 0;
     com_step := 0;
     port_openable := openable;
     wire := [];
     files := fs |}.

Definition set_selected_interpolation (v : string) (s : ThrusterGUI) :=
  mkGUI v (baud_rate s) (serial_port s) (output_frequency s) (cached_pwms s)
    (timer_active s) (timer_interval s) (serial_conn s) (serial_status s)
    (points s) (max_time s) (com_step s) (port_openable s) (wire s) (files s).
Definition set_serial_port (v : option string) (s : ThrusterGUI) :=
  mkGUI (selected_interpolation s) (baud_rate s) v (output_frequency s) (cached_pwms s)
    (timer_active s) (timer_interval s) (serial_conn s) (serial_status s)
    (points s) (max_time s) (com_step s) (port_openable s) (wire s) (files s).
Definition set_baud_rate (v : Z) (s : ThrusterGUI) :=
  mkGUI (selected_interpolation s) v (serial_port s) (output_frequency s) (cached_pwms s)
    (timer_active s) (timer_interval s) (serial_conn s) (serial_status s)
    (points s) (max_time s) (com_step s) (port_openable s) (wire s) (files s).
Definition set_output_frequency (v : Z) (s : ThrusterGUI) :=
  mkGUI (selected_interpolation s) (baud_rate s) (serial_port s) v (cached_pwms s)
    (timer_active s) (timer_interval s) (serial_conn s) (serial_status s)
    (points s) (max_time s) (com_step s) (port_openable s) (wire s) (files s).
Definition set_cached_pwms (v : list (list Q * list npfloat)) (s : ThrusterGUI) :=
  mkGUI (selected_interpolation s) (baud_rate s) (serial_port s) (output_frequency s) v
    (timer_active s) (timer_interval s) (serial_conn s) (serial_status s)
    (points s) (max_time s) (com_step s) (port_openable s) (wire s) (files s).
Definition set_timer (active : bool) (interval : Z) (s : ThrusterGUI) :=
  mkGUI (selected_interpolation s) (baud_rate s) (serial_port s) (output_frequency s)
    (cached_pwms s) active interval (serial_conn s) (serial_status s)
    (points s) (max_time s) (com_step s) (port_openable s) (wire s) (files s).
Definition set_serial_conn (v : option bool) (s : ThrusterGUI) :=
  mkGUI (selected_interpolation s) (baud_rate s) (serial_port s) (output_frequency s)
    (cached_pwms s) (timer_active s) (timer_interval s) v (serial_status s)
    (points s) (max_time s) (com_step s) (port_openable s) (wire s) (files s).
Definition set_serial_status (v : Z) (s : ThrusterGUI) :=
  mkGUI (selected_interpolation s) (baud_rate s) (serial_port s) (output_frequency s)
    (cached_pwms s) (timer_active s) (timer_interval s) (serial_conn s) v
    (points s) (max_time s) (com_step s) (port_openable s) (wire s) (files s).
Definition set_points (v : list (list waypoint)) (s : ThrusterGUI) :=
  mkGUI (selected_interpolation s) (baud_rate s) (serial_port s) (output_frequency s)
    (cached_pwms s) (timer_active s) (timer_interval s) (serial_conn s) (serial_status s)
    v (max_time s) (com_step s) (port_openable s) (wire s) (files s).
Definition set_max_time (v : Q) (s : ThrusterGUI) :=
  mkGUI (selected_interpolation s) (baud_rate s) (serial_port s) (output_frequency s)
    (cached_pwms s) (timer_active s) (timer_interval s) (serial_conn s) (serial_status s)
    (points s) v (com_step s) (port_openable s) (wire s) (files s).
Definition set_com_step (v : nat) (s : ThrusterGUI) :=
  mkGUI (selected_interpolation s) (baud_rate s) (serial_port s) (output_frequency s)
    (cached_pwms s) (timer_active s) (timer_interval s) (serial_conn s) (serial_status s)
    (points s) (max_time s) v (port_openable s) (wire s) (files s).
Definition set_wire (v : list (list Z)) (s : ThrusterGUI) :=
  mkGUI (selected_interpolation s) (baud_rate s) (serial_port s) (output_frequency s)
    (cached_pwms s) (timer_active s) (timer_interval s) (serial_conn s) (serial_status s)
    (points s) (max_time s) (com_step s) (port_openable s) v (files s).
Definition set_files (v : list (string * snapshot)) (s : ThrusterGUI) :=
  mkGUI (selected_interpolation s) (baud_rate s) (serial_port s) (output_frequency s)
    (cached_pwms s) (timer_active s) (timer_interval s) (serial_conn s) (serial_status s)
    (points s) (max_time s) (com_step s) (port_openable s) (wire s) v.

(** ** Methods as state transformers that may raise

    A method call takes the object to a result (a value or the exception
    that left the method) together with the object as the call left it: an
    exception does not undo the assignments made before it. *)

Definition M (A : Type) : Type := ThrusterGUI -> result A * ThrusterGUI.

Definition ret {A} (a : A) : M A := fun s => (Ok a, s).
Definition raise {A} (e : exn) : M A := fun s => (Raise e, s).
Definition bind {A B} (m : M A) (k : A -> M B) : M B :=
  fun s =>
    match m s with
    | (Ok a, s') => k a s'
    | (Raise e, s') => (Raise e, s')
    end.
Definition gets {A} (f : ThrusterGUI -> A) : M A := fun s => (Ok (f s), s).
Definition modify (f : ThrusterGUI -> ThrusterGUI) : M unit := fun s => (Ok tt, f s).
Definition lift {A} (r : result A) : M A := fun s => (r, s).

Notation "x <- m ;; k" := (bind m (fun x => k))
  (at level 61, m at next level, right associativity).
Notation "m ;;; k" := (bind m (fun _ => k))
  (at level 61, right associativity).

(** [for x in xs: body(x)] *)
Fixpoint for_each {A} (xs : list A) (body : A -> M unit) : M unit :=
  match xs with
  | [] => ret tt
  | x :: xs' => body x ;;; for_each xs' body
  end.

(** [l[i]] and [l[i] = v] on a Python list. *)
Definition getitem {A} (l : list A) (i : nat) : result A :=
  match nth_error l i with
  | Some x => Ok x
  | None => Raise IndexError
  end.

Fixpoint setitem {A} (l : list A) (i : nat) (v : A) : result (list A) :=
  match l, i with
  | [], _ => Raise IndexError
  | _ :: l', O => Ok (v :: l')
  | x :: l', S i' =>
      match setitem l' i' v with
      | Ok r => Ok (x :: r)
      | Raise e => Raise e
      end
  end.

(** ** The serial port object and the Qt timer *)

(** [self.serial_conn.close()] *)
Definition conn_close : M unit := fun s =>
  match serial_conn s with
  | None => (Raise AttributeError, s)
  | Some _ => (Ok tt, set_serial_conn (Some false) s)
  end.

(** [self.serial_conn.write(data)]: pyserial refuses a port that is not open. *)
Definition conn_write (data : list Z) : M unit := fun s =>
  match serial_conn s with
  | None => (Raise AttributeError, s)
  | Some false => (Raise SerialException, s)
  | Some true => (Ok tt, set_wire (wire s ++ [data]) s)
  end.

(** [serial.Serial(self.serial_port, self.baud_rate, timeout=1)]: without a
    port name the object is created closed; with one, the device is opened
    or [SerialException] is raised. *)
Definition serial_Serial (s : ThrusterGUI) : result bool :=
  match serial_port s with
  | None => Ok false
  | Some _ => if port_openable s then Ok true else Raise SerialException
  end.

(** [self.serial_timer.start(msec)] and [self.serial_timer.stop()] *)
Definition timer_start (msec : Z) : M unit := modify (set_timer true msec).
Definition timer_stop : M unit := modify (fun s => set_timer false (timer_interval s) s).

(** [a // b] *)
Definition floordiv (a b : Z) : M Z :=
  if b =? 0 then raise ZeroDivisionError else ret (a / b).

(** ** Link set-up, framing and the idle sequence *)

(** [setup_serial], testbench.py 325-338 *)
Definition setup_serial : M unit :=
  status <- gets serial_status ;;
  (if status =? 1
   then conn_close ;;; modify (set_serial_status 0)
   else ret tt) ;;;
  opened <- gets serial_Serial ;;
  match opened with
  | Ok is_open =>
      modify (set_serial_conn (Some is_open)) ;;;
      if is_open then modify (set_serial_status 1) else ret tt
  | Raise _ =>
      modify (set_serial_conn None) ;;; modify (set_serial_status 0)
  end.

(** [change_frequency], testbench.py 340-344 *)
Definition change_frequency (freq : Z) : M unit :=
  modify (set_output_frequency freq) ;;;
  active <- gets timer_active ;;
  if active
  then f <- gets output_frequency ;; ms <- floordiv 1000 f ;; timer_start ms
  else ret tt.

Definition frame_header : list Z := [0xAA; 0x00; 0x00].
Definition frame_trailer : list Z := [0xEE].

Definition clamp_pwm (pwm : Z) : Z := Z.max 1100 (Z.min 1900 pwm).

(** [serial_send], testbench.py 362-388 *)
Definition serial_send (pwm_values : list Z) : M unit :=
  if negb (Nat.eqb (List.length pwm_values) 8) then raise ValueError
  else
    let pwm_values := map clamp_pwm pwm_values in
    packet <- lift (Py.pack_8H pwm_values) ;;
    status <- gets serial_status ;;
    if status =? 1
    then
      crc <- lift (Py.pack_B (CRC.crc8 (frame_header ++ packet))) ;;
      let fullpacket := frame_header ++ packet ++ crc ++ frame_trailer in
      conn_write fullpacket
    else raise ConnectionError.

(** [serial_send_idle], testbench.py 390-396 *)
Definition serial_send_idle : M unit :=
  status <- gets serial_status ;;
  (if status =? 0 then setup_serial else ret tt) ;;;
  timer_stop ;;;
  serial_send (repeat 1500 8) ;;;
  conn_close ;;;
  modify (set_serial_status 0).

(** ** The cache lookup and the tick handler *)

(** [int(self.cached_pwms[i][1][step])] *)
Definition cached_sample (cached : list (list Q * list npfloat)) (i step : nat)
  : result Z :=
  match getitem cached i with
  | Ok curve =>
      match getitem (snd curve) step with
      | Ok y => Py.int_sample y
      | Raise e => Raise e
      end
  | Raise e => Raise e
  end.

(** The loop of [get_pwms] under its bare [except]: the first failure ends
    the loop and what was collected so far is returned. *)
Fixpoint get_pwms_loop (cached : list (list Q * list npfloat)) (step : nat)
    (channels : list nat) (result : list Z) : list Z :=
  match channels with
  | [] => result
  | i :: rest =>
      match cached_sample cached i step with
      | Ok v => get_pwms_loop cached step rest (result ++ [v])
      | Raise _ => result
      end
  end.

(** [get_pwms], testbench.py 455-462 *)
Definition get_pwms (step : nat) : M (list Z) :=
  gets (fun s => get_pwms_loop (cached_pwms s) step (seq 0 THRUSTER_COUNT) []).

(** The bound of the end-of-run test: [int(self.max_time * self.output_frequency) + 1]. *)
Definition step_bound (s : ThrusterGUI) : Z :=
  Py.int (max_time s * inject_Z (output_frequency s)) + 1.

(** [send_pwms], testbench.py 449-453 *)
Definition send_pwms : M unit :=
  step <- gets com_step ;;
  bound <- gets step_bound ;;
  if Z.of_nat step <=? bound
  then
    pwms <- get_pwms step ;;
    serial_send pwms ;;;
    modify (fun s => set_com_step (S (com_step s)) s)
  else serial_send_idle.

(** The timer calls [send_pwms] at each timeout while it is active, and not
    at all once it is stopped.  An exception that leaves the slot leaves the
    object as it is. *)
Definition timer_event : M unit := fun s =>
  if timer_active s then send_pwms s else (Ok tt, s).

Fixpoint run_ticks (n : nat) (s : ThrusterGUI) : ThrusterGUI :=
  match n with
  | O => s
  | S n' => run_ticks n' (snd (timer_event s))
  end.

(** ** The sampling grid *)

(** [compute_max_time], testbench.py 422-428 *)
Definition compute_max_time : M unit :=
  modify (set_max_time 0) ;;;
  for_each (seq 0 THRUSTER_COUNT) (fun i =>
    pts <- gets points ;;
    p <- lift (getitem pts i) ;;
    match p with
    | [] => ret tt
    | _ =>
        let a := Py.max (map fst p) in
        m <- gets max_time ;;
        if Py.Qltb m a then modify (set_max_time a) else ret tt
    end).

(** [np.linspace(0, round(self.max_time), int(self.max_time * self.output_frequency) + 1)] *)
Definition sample_times : M (list Q) :=
  mt <- gets max_time ;;
  bound <- gets step_bound ;;
  lift (Py.linspace 0 (inject_Z (Py.round mt)) bound).

(** ** Curve building, the cache rebuild, start and persistence *)

Definition try_except (m : M unit) : M unit := fun s =>
  match m s with
  | (Ok _, s') => (Ok tt, s')
  | (Raise _, s') => (Ok tt, s')
  end.

(** The dict comprehension of [json_save_sequence] as [json.dump] writes
    it: the integer keys become their decimal strings. *)
Fixpoint thruster_dict (pts : list (list waypoint)) (channels : list nat)
  : result (list (string * list waypoint)) :=
  match channels with
  | [] => Ok []
  | i :: rest =>
      match getitem pts i, thruster_dict pts rest with
      | Ok p, Ok d => Ok ((Py.str i, p) :: d)
      | Raise e, _ => Raise e
      | _, Raise e => Raise e
      end
  end.

(** [json_save_sequence], testbench.py 464-483; the file dialog's answer is
    the argument, the empty string when the dialog is cancelled. *)
Definition json_save_sequence (file_path : string) : M unit :=
  if String.eqb file_path "" then ret tt
  else
    kind <- gets selected_interpolation ;;
    freq <- gets output_frequency ;;
    pts <- gets points ;;
    d <- lift (thruster_dict pts (seq 0 THRUSTER_COUNT)) ;;
    let data := mkSnapshot (Some kind) (Some freq) (Some d) in
    modify (fun s => set_files ((file_path, data) :: files s) s).

(** [open(file_path, "r")] followed by [json.load] *)
Fixpoint read_file (fs : list (string * snapshot)) (file_path : string)
  : result snapshot :=
  match fs with
  | [] => Raise FileNotFoundError
  | (name, data) :: fs' =>
      if String.eqb name file_path then Ok data else read_file fs' file_path
  end.

Definition interpolation_methods : list (string * string) :=
  [("Linear", "linear"); ("Constant", "constant"); ("Polynomial", "polynomial")]%string.

Section Controller.

(** The two scipy constructors.  Building a curve may raise; a curve that
    was built maps a time to a sample, and is applied to an array element
    by element. *)
Variable interp1d : list Q -> list Z -> string -> result (Q -> npfloat).
Variable BarycentricInterpolator : list Q -> list Z -> result (Q -> npfloat).

(** The [if]/[elif] chain on [self.selected_interpolation], the same in
    [interpolate_thruster_curve] and [compute_pwms]: when no branch is
    taken the name [f] stays unbound ([None]). *)
Definition select_curve (kind : string) (times : list Q) (pwm_values : list Z)
  : result (option (Q -> npfloat)) :=
  let bound (r : result (Q -> npfloat)) :=
    match r with
    | Ok f => Ok (Some f)
    | Raise e => Raise e
    end in
  if String.eqb kind "linear" then bound (interp1d times pwm_values "linear")
  else if String.eqb kind "constant" then bound (interp1d times pwm_values "previous")
  else if String.eqb kind "polynomial" then bound (BarycentricInterpolator times pwm_values)
  else Ok None.

(** [interpolate_thruster_curve], testbench.py 300-323; the two [plot]
    calls only draw. *)
Definition interpolate_thruster_curve (thruster_index : nat) : M unit :=
  pts <- gets points ;;
  p <- lift (getitem pts thruster_index) ;;
  tp <- lift (Py.unzip_points p) ;;
  kind <- gets selected_interpolation ;;
  f <- lift (select_curve kind (fst tp) (snd tp)) ;;
  compute_max_time ;;;
  t_interp <- sample_times ;;
  match f with
  | None => raise UnboundLocalError
  | Some _ => ret tt
  end.

(** [change_interpolation], testbench.py 295-298 *)
Definition change_interpolation (method : string) : M unit :=
  match find (fun kv => String.eqb (fst kv) method) interpolation_methods with
  | None => raise KeyError
  | Some kv =>
      modify (set_selected_interpolation (snd kv)) ;;;
      for_each (seq 0 THRUSTER_COUNT) interpolate_thruster_curve
  end.

(** The body of the loop of [compute_pwms] for channel [i]. *)
Definition compute_pwms_channel (i : nat) : M unit :=
  pts <- gets points ;;
  p <- lift (getitem pts i) ;;
  tp <- lift (Py.unzip_points p) ;;
  kind <- gets selected_interpolation ;;
  f <- lift (select_curve kind (fst tp) (snd tp)) ;;
  t_interp <- sample_times ;;
  match f with
  | None => raise UnboundLocalError
  | Some f =>
      let y_interp := map f t_interp in
      let y_interp := map (Py.clip 1100 1900) y_interp in
      cached <- gets cached_pwms ;;
      cached' <- lift (setitem cached i (t_interp, y_interp)) ;;
      modify (set_cached_pwms cached')
  end.

(** [compute_pwms], testbench.py 430-446 *)
Definition compute_pwms : M unit :=
  compute_max_time ;;;
  for_each (seq 0 THRUSTER_COUNT) compute_pwms_channel.

Definition start_sequence : list (list Z) :=
  [[0xFF]; [0x00]; [0x01]; [0x00]; [0x00]; [0x52]; [0xEE]].

(** [serial_start], testbench.py 406-420.  The [else] branch builds a
    [ConnectionError] without raising it. *)
Definition serial_start : M unit :=
  setup_serial ;;;
  status <- gets serial_status ;;
  (if status =? 0 then raise ConnectionError else ret tt) ;;;
  compute_pwms ;;;
  status <- gets serial_status ;;
  (if status =? 1 then for_each start_sequence conn_write else ret tt) ;;;
  modify (set_com_step 0) ;;;
  f <- gets output_frequency ;;
  ms <- floordiv 1000 f ;;
  timer_start ms.

(** [serial_start_stop], testbench.py 398-404 *)
Definition serial_start_stop : M unit :=
  status <- gets serial_status ;;
  if status =? 1 then serial_send_idle else serial_start.

(** The [try] body of [json_load_sequence] once the file is parsed;
    [update_graph] only redraws. *)
Definition load_data (data : snapshot) : M unit :=
  modify (set_selected_interpolation
            (match interpolation_method data with Some k => k | None => "linear" end)) ;;;
  modify (set_output_frequency
            (match frequency data with Some f => f | None => 20 end)) ;;;
  for_each (seq 0 THRUSTER_COUNT) (fun i =>
    d <- lift (match thruster_data data with
               | Some d => Ok d
               | None => Raise KeyError
               end) ;;
    pts <- gets points ;;
    pts' <- lift (setitem pts i (Py.dict_get d (Py.str i) [])) ;;
    modify (set_points pts') ;;;
    interpolate_thruster_curve i).

(** [json_load_sequence], testbench.py 485-509 *)
Definition json_load_sequence (file_path : string) : M unit :=
  if String.eqb file_path "" then ret tt
  else
    try_except (
      fs <- gets files ;;
      data <- lift (read_file fs file_path) ;;
      load_data data).

End Controller.

(** The frame [serial_send] puts on the wire for a vector of eight values. *)
Definition frame_of (pwm_values : list Z) : list Z :=
  let packet := flat_map Py.le_uint16 (map clamp_pwm pwm_values) in
  frame_header ++ packet ++ [CRC.crc8 (frame_header ++ packet)] ++ frame_trailer.

(** ** Sample data for the closed examples *)

Module Sample.

(** A stand-in for the scipy builders, used only to run closed examples:
    whatever the kind, the curve holds the value of the last waypoint at
    or before the queried time, and that of the first waypoint before it. *)
Fixpoint hold (times : list Q) (pwm_values : list Z) (current : Z) (t : Q) : Z :=
  match times, pwm_values with
  | x :: times', y :: pwm_values' =>
      if Qle_bool x t then hold times' pwm_values' y t else current
  | _, _ => current
  end.

Definition step_curve (times : list Q) (pwm_values : list Z)
  : result (Q -> npfloat) :=
  match pwm_values with
  | [] => Raise ValueError
  | y0 :: _ => Ok (fun t => Fin (inject_Z (hold times pwm_values y0 t)))
  end.

Definition interp1d (times : list Q) (pwm_values : list Z) (kind : string) :=
  step_curve times pwm_values.

Definition BarycentricInterpolator := step_curve.

(** A controller in the middle of a run: port open, timer running. *)
Definition streaming (pts : list (list waypoint))
    (cache : list (list Q * list npfloat)) (mt : Q) (freq : Z) (cursor : nat)
  : ThrusterGUI :=
  {| selected_interpolation := "linear";
     baud_rate := DEFAULT_BAUD;
     serial_port := Some "COM3"%string;
     output_frequency := freq;
     cached_pwms := cache;
     timer_active := true;
     timer_interval := 1000 / freq;
     serial_conn := Some true;
     serial_status := 1;
     points := pts;
     max_time := mt;
     com_step := cursor;
     port_openable := true;
     wire := start_sequence;
     files := [] |}.

(** Every channel flat at 1500 from t = 0 to t = 1. *)
Definition flat_points : list (list waypoint) :=
  repeat [(0%Q, 1500); (1%Q, 1500)] 8.

(** The cache of [flat_points] at 1 Hz: two samples a channel. *)
Definition flat_cache_1hz : list (list Q * list npfloat) :=
  repeat ([0%Q; 1%Q], [Fin 1500; Fin 1500]) 8.

(** The cache of [flat_points] at 20 Hz: twenty-one samples a channel. *)
Definition flat_cache_20hz : list (list Q * list npfloat) :=
  repeat (map (fun i => Qred (inject_Z (Z.of_nat i) / 20)) (seq 0 21),
          repeat (Fin 1500) 21) 8.

(** A run started at 20 Hz whose frequency was lowered to 1 Hz after five
    frames: the cursor is past the bound the tick handler now computes. *)
Definition lowered_mid_run : ThrusterGUI :=
  streaming flat_points flat_cache_20hz 1 1 5.

(** A run at 20 Hz, five frames in. *)
Definition mid_run_20hz : ThrusterGUI :=
  streaming flat_points flat_cache_20hz 1 20 5.


(** A run at 1 Hz that has just started. *)
Definition just_started : ThrusterGUI :=
  streaming flat_points flat_cache_1hz 1 1 0.

(** Every channel with the single waypoint (0, 1500), started at 20 Hz. *)
Definition single_points : list (list waypoint) := repeat [(0%Q, 1500)] 8.
Definition single_cache : list (list Q * list npfloat) :=
  repeat ([0%Q], [Fin 1500]) 8.
Definition single_started : ThrusterGUI :=
  streaming single_points single_cache 0 20 0.

(** A controller just created, with a port selected, no waypoint entered. *)
Definition idle_empty : ThrusterGUI :=
  set_serial_port (Some "COM3"%string) (init true []).

(** Only the first channel has a waypoint. *)
Definition first_channel_only : ThrusterGUI :=
  set_points ([(0%Q, 1500)] :: repeat [] 7) idle_empty.

(** Only the second channel has a waypoint. *)
Definition second_channel_only : ThrusterGUI :=
  set_points ([] :: [(0%Q, 1500)] :: repeat [] 6) idle_empty.

(** Every channel flat at 1500 from t = 0 to t = 1.5, output at 2 Hz. *)
Definition fractional_end : ThrusterGUI :=
  set_output_frequency 2
    (set_points (repeat [(0%Q, 1500); (3 # 2, 1500)] 8) idle_empty).

(** Every channel flat at 1600 from t = 0 to t = 2.5, output at 2 Hz. *)
Definition raised_points : list (list waypoint) :=
  repeat [(0%Q, 1600); (5 # 2, 1600)] 8.

Definition raised_idle : ThrusterGUI :=
  set_output_frequency 2 (set_points raised_points idle_empty).

(** The cache of [raised_points] at 2 Hz: six samples a channel, on the
    grid from 0 to [round(2.5)] = 2. *)
Definition raised_cache : list (list Q * list npfloat) :=
  repeat ([0%Q; 2 # 5; 4 # 5; 6 # 5; 8 # 5; 2%Q], repeat (Fin 1600) 6) 8.

(** The run that [serial_start] begins on [raised_idle]. *)
Definition raised_run : ThrusterGUI :=
  streaming raised_points raised_cache (5 # 2) 2 0.

End Sample.

(** ** Decision procedures used by the proofs about the CRC *)

Module CRCCheck.
Import CRC CRCRef.

Definition all_octets : list Z := map Z.of_nat (seq 0 256).

Fixpoint bits_eqb (a b : register) : bool :=
  match a, b with
  | [], [] => true
  | x :: a', y :: b' => Bool.eqb x y && bits_eqb a' b'
  | _, _ => false
  end.

(** What one shift does on a register value: the source's result is an
    octet, its bits are those of the reference's shift, and the bit view
    loses nothing. *)
Definition shift_agrees (r : Z) : bool :=
  (0 <=? crc8_bit r) && (crc8_bit r <? 256)
  && bits_eqb (octet_bits (crc8_bit r)) (shift_step (octet_bits r))
  && (bits_octet (octet_bits r) =? r).

End CRCCheck.

(** ** Bookkeeping for runs of ticks *)

(** One when the timer is running, zero when it is stopped. *)
Definition armed (s : ThrusterGUI) : nat := if timer_active s then 1 else 0.

(** What a run of ticks keeps, relative to the state [s0] it started in. *)
Definition run_invariant (s0 : ThrusterGUI) (len : nat) (s : ThrusterGUI) : Prop :=
  cached_pwms s = cached_pwms s0 /\
  (com_step s0 <= com_step s <= len)%nat /\
  (List.length (wire s) + com_step s0 + armed s
   <= List.length (wire s0) + com_step s + 1)%nat.

(** ** The inverse of one shift of the CRC register *)

Module CRCInverse.
Import CRC.

(** Undoes one pass of the inner loop of [crc8] on an octet: the low bit
    of the result tells whether the polynomial was XOR-ed in, that is,
    whether the top bit was set before. *)
Definition crc8_bit_inv (r : Z) : Z :=
  if Z.odd r
  then Z.lor (Z.shiftr (Z.lxor r polynomial) 1) 0x80
  else Z.shiftr r 1.

Definition shift_undone (r : Z) : bool := crc8_bit_inv (crc8_bit r) =? r.

End CRCInverse.

(** ** The running maximum of [compute_max_time], as a function *)

(** What one pass of the loop of [compute_max_time] does to [max_time] on a
    channel with waypoints [p]. *)
Definition max_time_step (m : Q) (p : list waypoint) : Q :=
  match p with
  | [] => m
  | _ => let a := Py.max (map fst p) in if Py.Qltb m a then a else m
  end.

(** A cached sample as [np.clip] leaves it: nan, or a value in [1100, 1900]. *)
Definition clipped (y : npfloat) : Prop :=
  match y with
  | Fin q => (1100 <= q)%Q /\ (q <= 1900)%Q
  | NaN => True
  | PInf | NInf => False
  end.

(** ** The link flag and the port object *)

(** The status flag is 0 or 1, and it is 1 only while the port object is
    open. *)
Definition link_ok (s : ThrusterGUI) : Prop :=
  (serial_status s = 0 \/ serial_status s = 1) /\
  (serial_status s = 1 -> serial_conn s = Some true).

(** What [get_pwms] returns for step [k] of a cache. *)
Definition vector_at (cached : list (list Q * list npfloat)) (k : nat) : list Z :=
  get_pwms_loop cached k (seq 0 THRUSTER_COUNT) [].

(** A run after [k] data frames: cursor at [k], the frames of steps 0 to
    k - 1 on the wire after what was there. *)
Definition after_frames (s : ThrusterGUI) (k : nat) : ThrusterGUI :=
  set_com_step k
    (set_wire (wire s ++ map (fun j => frame_of (vector_at (cached_pwms s) j)) (seq 0 k)) s).

(** ** Properties kept by a method call *)

(** [keeps P m]: if [P] holds before the call [m], it holds after it,
    whether the call returns or raises. *)
Definition keeps {A} (P : ThrusterGUI -> Prop) (m : M A) : Prop :=
  forall s r s', m s = (r, s') -> P s -> P s'.

(** ** Removing a waypoint (testbench.py 266-283)

    A dialog's answer is [Some] value, or [None] when it was cancelled.  The
    thruster number comes from a spin box limited to 1..8; the index used is
    [thruster_num - 1], which for 0 would be Python's last element.

    The two other waypoint dialogs (adding, editing) end in [list.sort()] on
    the channel.  Its outcome depends on whether the channel holds the
    tuples the dialogs make or the lists a loaded file brings, which the
    [points] attribute of this development does not tell apart; they are
    not modelled. *)

Module Waypoints.

(** The index [thruster_num - 1] into a list of [len] channels. *)
Definition channel_index (thruster_num len : nat) : nat :=
  match thruster_num with
  | O => len - 1
  | S i => i
  end.

(** [labels.index(x)]: the first position that holds [x]. *)
Fixpoint first_index (labels : list string) (x : string) : result nat :=
  match labels with
  | [] => Raise ValueError
  | l :: rest =>
      if String.eqb l x then Ok O
      else match first_index rest x with
           | Ok i => Ok (S i)
           | Raise e => Raise e
           end
  end.

(** [del l[i]] *)
Fixpoint delitem {A} (l : list A) (i : nat) : result (list A) :=
  match l, i with
  | [], _ => Raise IndexError
  | _ :: l', O => Ok l'
  | x :: l', S i' =>
      match delitem l' i' with
      | Ok r => Ok (x :: r)
      | Raise e => Raise e
      end
  end.

Section Dialogs.

(** The text shown for a waypoint in the selection list,
    [f"t={t:.2f}s, PWM={p}"]. *)
Variable point_label : waypoint -> string.

(** The list dialog: the user picks position [choice]; the dialog returns
    the text at that position, and the code looks the text up again. *)
Definition selected_index (ch : list waypoint) (choice : nat) : result nat :=
  let point_list := map point_label ch in
  match getitem point_list choice with
  | Ok selected_point => first_index point_list selected_point
  | Raise e => Raise e
  end.

(** [remove_point_dialog], testbench.py 266-283 *)
Definition remove_point_dialog (thruster_num : option nat) (choice : option nat)
  : M unit :=
  match thruster_num with
  | None => ret tt
  | Some n =>
      pts <- gets points ;;
      let i := channel_index n (List.length pts) in
      ch <- lift (getitem pts i) ;;
      match ch with
      | [] => ret tt
      | _ =>
      match choice with
      | None => ret tt
      | Some c =>
          j <- lift (selected_index ch c) ;;
          ch' <- lift (delitem ch j) ;;
          pts' <- lift (setitem pts i ch') ;;
          modify (set_points pts')
      end end
  end.

End Dialogs.

End Waypoints.

(** ** The thruster selection dialog (thruster_selection.py 32-33) *)

(** [CheckboxInputDialog.get_checked]; the dialog is its eight check boxes,
    each with its state. *)
Definition get_checked (checkboxes : list bool) : result (list nat) :=
  fold_right
    (fun i acc =>
       match getitem checkboxes i, acc with
       | Ok true, Ok l => Ok (i :: l)
       | Ok false, Ok l => Ok l
       | Raise e, _ => Raise e
       | _, Raise e => Raise e
       end)
    (Ok []) (seq 0 8).

(** ** Stand-ins for the dialog texts, for the closed examples *)

Module SampleDialog.

(** A coarse label, under which two waypoints can look alike. *)
Definition coarse_label (w : waypoint) : string :=
  if snd w <? 1500 then "reverse"%string else "forward"%string.

(** A controller whose first channel holds two waypoints with one label. *)
Definition two_alike : ThrusterGUI :=
  set_points ([(0%Q, 1500); (1%Q, 1600)] :: repeat [] 7) Sample.idle_empty.

(** Every channel with the single waypoint (0, 1500), nothing started. *)
Definition single_idle : ThrusterGUI :=
  set_points Sample.single_points Sample.idle_empty.

End SampleDialog.

(** * Properties *)

(** Reading an attribute after assignments. *)
Ltac attrs :=
  cbn [selected_interpolation baud_rate serial_port output_frequency cached_pwms
       timer_active timer_interval serial_conn serial_status points max_time
       com_step port_openable wire files
       set_selected_interpolation set_serial_port set_baud_rate
       set_output_frequency set_cached_pwms set_timer set_serial_conn
       set_serial_status set_points set_max_time set_com_step set_wire set_files] in *.

(** ** The CRC engine *)

Module CRCFacts.
Import CRC CRCRef CRCCheck.

Lemma octet_listed (r : Z) : is_byte r -> In r all_octets.
Proof.
  intros [Hlo Hhi]. unfold all_octets.
  rewrite <- (Z2Nat.id r) by assumption.
  apply in_map, in_seq. lia.
Qed.

Lemma bits_eqb_eq (a b : register) : bits_eqb a b = true -> a = b.
Proof.
  revert b. induction a as [|x a IH]; intros [|y b]; simpl; try discriminate; auto.
  intros H. apply andb_true_iff in H as [Hxy Hab].
  apply Bool.eqb_prop in Hxy. subst. f_equal. auto.
Qed.

Lemma shift_agrees_all : forallb shift_agrees all_octets = true.
Proof. vm_compute. reflexivity. Qed.

Lemma shift_agrees_at (r : Z) : is_byte r -> shift_agrees r = true.
Proof.
  intros H. apply octet_listed in H.
  exact (proj1 (forallb_forall _ _) shift_agrees_all r H).
Qed.

Lemma crc8_bit_octet (r : Z) : is_byte r -> is_byte (crc8_bit r).
Proof.
  intros H. pose proof (shift_agrees_at r H) as A. unfold shift_agrees in A.
  repeat (apply andb_true_iff in A as [A ?]).
  unfold is_byte. lia.
Qed.

Lemma crc8_bit_bits (r : Z) :
  is_byte r -> octet_bits (crc8_bit r) = shift_step (octet_bits r).
Proof.
  intros H. pose proof (shift_agrees_at r H) as A. unfold shift_agrees in A.
  repeat (apply andb_true_iff in A as [A ?]).
  now apply bits_eqb_eq.
Qed.

Lemma bits_octet_bits (r : Z) : is_byte r -> bits_octet (octet_bits r) = r.
Proof.
  intros H. pose proof (shift_agrees_at r H) as A. unfold shift_agrees in A.
  repeat (apply andb_true_iff in A as [A ?]).
  lia.
Qed.

Lemma lxor_octet (a b : Z) : is_byte a -> is_byte b -> is_byte (Z.lxor a b).
Proof.
  unfold is_byte. intros [Ha Ha'] [Hb Hb']. split.
  - apply Z.lxor_nonneg. tauto.
  - destruct (Z.eq_dec (Z.lxor a b) 0) as [E|E]; [rewrite E; lia|].
    assert (0 <= Z.lxor a b) by (apply Z.lxor_nonneg; tauto).
    apply (Z.log2_lt_pow2 _ 8); [lia|].
    pose proof (Z.log2_lxor a b Ha Hb).
    assert (Z.log2 a < 8).
    { destruct (Z.eq_dec a 0) as [->|]; [simpl; lia|].
      apply Z.log2_lt_pow2; lia. }
    assert (Z.log2 b < 8).
    { destruct (Z.eq_dec b 0) as [->|]; [simpl; lia|].
      apply Z.log2_lt_pow2; lia. }
    lia.
Qed.

Lemma lxor_bits (a b : Z) :
  octet_bits (Z.lxor a b) = xor_bits (octet_bits a) (octet_bits b).
Proof. unfold octet_bits. cbn [map xor_bits]. now rewrite !Z.lxor_spec. Qed.

Lemma shifts_agree (n : nat) (r : Z) :
  is_byte r ->
  is_byte (Nat.iter n crc8_bit r) /\
  octet_bits (Nat.iter n crc8_bit r) = Nat.iter n shift_step (octet_bits r).
Proof.
  intros H. induction n as [|n [IHb IHe]]; simpl.
  - auto.
  - split.
    + now apply crc8_bit_octet.
    + rewrite crc8_bit_bits by assumption. now rewrite IHe.
Qed.

Lemma absorb_agrees (data : list Z) :
  Forall is_byte data ->
  forall r, is_byte r ->
    is_byte (fold_left crc8_byte data r) /\
    octet_bits (fold_left crc8_byte data r) = fold_left absorb data (octet_bits r).
Proof.
  induction 1 as [|b data Hb _ IH]; intros r Hr; simpl.
  - auto.
  - destruct (shifts_agree 8 (Z.lxor r b) (lxor_octet r b Hr Hb)) as [Ho Hbits].
    destruct (IH (crc8_byte r b) Ho) as [IHo IHbits].
    split; [exact IHo|].
    rewrite IHbits. f_equal. unfold crc8_byte, absorb.
    now rewrite Hbits, lxor_bits.
Qed.

Lemma land_255_octet (x : Z) : is_byte (Z.land x 0xFF).
Proof.
  unfold is_byte. change 0xFF with (Z.ones 8).
  rewrite Z.land_ones by lia. apply Z.mod_pos_bound. lia.
Qed.

(** The register is an octet after every byte, whatever the input holds. *)
Lemma crc8_octet (data : list Z) : is_byte (crc8 data).
Proof.
  unfold crc8.
  destruct data as [|b data] using rev_ind.
  - simpl. unfold is_byte. lia.
  - rewrite fold_left_app. simpl. unfold crc8_byte.
    change (Nat.iter 8 crc8_bit ?x) with (crc8_bit (Nat.iter 7 crc8_bit x)).
    unfold crc8_bit at 1. apply land_255_octet.
Qed.

End CRCFacts.

(** C2. For every sequence of octets, [crc8] returns an octet, and that
    octet is the one the reference bit-wise CRC-8 (polynomial 0x07, initial
    register 0x00, most significant bit first) returns. *)
Theorem crc8_is_reference_crc (data : list Z) :
  Forall CRC.is_byte data ->
  0 <= CRC.crc8 data <= 255 /\ CRC.crc8 data = CRCRef.crc8_reference data.
Proof.
  intros H.
  assert (H0 : CRC.is_byte 0) by (unfold CRC.is_byte; lia).
  destruct (CRCFacts.absorb_agrees data H 0 H0) as [Ho Hbits].
  fold (CRC.crc8 data) in Ho, Hbits.
  split.
  - unfold CRC.is_byte in Ho. lia.
  - unfold CRCRef.crc8_reference, CRCRef.init. rewrite <- Hbits.
    symmetry. now apply CRCFacts.bits_octet_bits.
Qed.

Lemma crc8_is_reference_crc_witness :
  Forall CRC.is_byte [0xAA; 0x00; 0x00] /\
  (0 <= CRC.crc8 [0xAA; 0x00; 0x00] <= 255 /\
   CRC.crc8 [0xAA; 0x00; 0x00] = CRCRef.crc8_reference [0xAA; 0x00; 0x00]).
Proof.
  assert (H : Forall CRC.is_byte [0xAA; 0x00; 0x00])
    by (repeat constructor; unfold CRC.is_byte; lia).
  split; [exact H | exact (crc8_is_reference_crc _ H)].
Defined.

(** Golden values: the header alone, and the check string "123456789" of
    the CRC catalogue entry for this polynomial. *)
Example crc8_header : CRC.crc8 [0xAA; 0x00; 0x00] = 0xCF.
Proof. reflexivity. Qed.

Example crc8_check_string :
  CRC.crc8 [49; 50; 51; 52; 53; 54; 55; 56; 57] = 0xF4.
Proof. reflexivity. Qed.

(** ** The packet framer *)

Lemma clamp_pwm_range (v : Z) : 1100 <= clamp_pwm v <= 1900.
Proof. unfold clamp_pwm. lia. Qed.

Lemma le_uint16_low_high (v : Z) :
  0 <= v < 65536 -> Py.le_uint16 v = [v mod 256; v / 256].
Proof.
  intros H. unfold Py.le_uint16.
  change 0xFF with (Z.ones 8).
  rewrite !Z.land_ones by lia. rewrite Z.shiftr_div_pow2 by lia.
  change (2 ^ 8) with 256.
  rewrite (Z.mod_small (v / 256)); [reflexivity|].
  split; [apply Z.div_pos; lia | apply Z.div_lt_upper_bound; lia].
Qed.

Lemma pack_8H_clamped (pwm_values : list Z) :
  List.length pwm_values = 8%nat ->
  Py.pack_8H (map clamp_pwm pwm_values)
  = Ok (flat_map Py.le_uint16 (map clamp_pwm pwm_values)).
Proof.
  intros Hlen. unfold Py.pack_8H.
  rewrite length_map, Hlen, Nat.eqb_refl. cbn [negb].
  assert (F : forallb (fun v => (0 <=? v) && (v <=? 0xFFFF)) (map clamp_pwm pwm_values) = true).
  { apply forallb_forall. intros v Hv. apply in_map_iff in Hv as [x [<- _]].
    pose proof (clamp_pwm_range x). apply andb_true_iff. split; lia. }
  now rewrite F.
Qed.

(** With the link open, a vector of eight values goes out as one write. *)
Lemma serial_send_open (pwm_values : list Z) (s : ThrusterGUI) :
  List.length pwm_values = 8%nat ->
  serial_status s = 1 ->
  serial_conn s = Some true ->
  serial_send pwm_values s = (Ok tt, set_wire (wire s ++ [frame_of pwm_values]) s).
Proof.
  intros Hlen Hstat Hopen. unfold serial_send.
  rewrite Hlen, Nat.eqb_refl. cbn [negb].
  unfold bind, lift, gets. rewrite (pack_8H_clamped _ Hlen). cbv beta iota.
  rewrite Hstat, Z.eqb_refl. cbv beta iota.
  pose proof (CRCFacts.crc8_octet
                (frame_header ++ flat_map Py.le_uint16 (map clamp_pwm pwm_values))) as [Hlo Hhi].
  unfold Py.pack_B.
  replace ((0 <=? _) && (_ <=? 255)) with true
    by (symmetry; apply andb_true_iff; split; lia).
  unfold conn_write. rewrite Hopen. reflexivity.
Qed.

(** Whenever [serial_send] raises, nothing was written and nothing changed. *)
Lemma serial_send_raise (pwm_values : list Z) (s s' : ThrusterGUI) (e : exn) :
  serial_send pwm_values s = (Raise e, s') -> s' = s.
Proof.
  unfold serial_send, bind, lift, gets, raise, conn_write.
  repeat match goal with
         | |- context [if ?c then _ else _] => destruct c
         | |- context [match ?x with _ => _ end] => destruct x
         end; intros H; inversion H; reflexivity.
Qed.

(** C1. With the link open, [serial_send] of eight integers adds exactly one
    write to the wire, a frame of 21 octets: AA 00 00, then each value
    clamped to [1100, 1900] as two octets, low one first, in channel order,
    then the CRC-8 of the nineteen octets before it, then EE. *)
Theorem serial_send_emits_frame (pwm_values : list Z) (s : ThrusterGUI) :
  List.length pwm_values = 8%nat ->
  serial_status s = 1 ->
  serial_conn s = Some true ->
  exists frame : list Z,
    serial_send pwm_values s = (Ok tt, set_wire (wire s ++ [frame]) s) /\
    List.length frame = 21%nat /\
    firstn 3 frame = [0xAA; 0x00; 0x00] /\
    (forall k : nat, (k < 8)%nat ->
       let v := Z.max 1100 (Z.min 1900 (nth k pwm_values 0)) in
       nth (3 + 2 * k) frame 0 = v mod 256 /\
       nth (4 + 2 * k) frame 0 = v / 256) /\
    nth 19 frame 0 = CRC.crc8 (firstn 19 frame) /\
    nth 20 frame 0 = 0xEE.
Proof.
  intros Hlen Hstat Hopen.
  exists (frame_of pwm_values). split; [now apply serial_send_open|].
  do 9 (destruct pwm_values as [|? pwm_values]; try discriminate Hlen).
  unfold frame_of, frame_header, frame_trailer.
  cbn [map flat_map app].
  rewrite !le_uint16_low_high
    by (match goal with |- _ <= clamp_pwm ?x < _ => pose proof (clamp_pwm_range x); lia end).
  cbn [app]. repeat split.
  all: do 8 (try destruct k as [|k]); try lia; reflexivity.
Qed.

Lemma serial_send_emits_frame_witness :
  exists frame : list Z,
    serial_send (repeat 1500 8)
      (set_serial_status 1 (set_serial_conn (Some true) (init true [])))
    = (Ok tt,
       set_wire (wire (set_serial_status 1 (set_serial_conn (Some true) (init true [])))
                 ++ [frame])
         (set_serial_status 1 (set_serial_conn (Some true) (init true [])))) /\
    List.length frame = 21%nat /\
    firstn 3 frame = [0xAA; 0x00; 0x00] /\
    (forall k : nat, (k < 8)%nat ->
       let v := Z.max 1100 (Z.min 1900 (nth k (repeat 1500 8) 0)) in
       nth (3 + 2 * k) frame 0 = v mod 256 /\
       nth (4 + 2 * k) frame 0 = v / 256) /\
    nth 19 frame 0 = CRC.crc8 (firstn 19 frame) /\
    nth 20 frame 0 = 0xEE.
Proof.
  apply (serial_send_emits_frame (repeat 1500 8)
           (set_serial_status 1 (set_serial_conn (Some true) (init true []))));
    reflexivity.
Defined.

(** The idle frame, octet by octet. *)
Example idle_frame_octets :
  frame_of (repeat 1500 8)
  = [0xAA; 0x00; 0x00;
     0xDC; 0x05; 0xDC; 0x05; 0xDC; 0x05; 0xDC; 0x05;
     0xDC; 0x05; 0xDC; 0x05; 0xDC; 0x05; 0xDC; 0x05;
     CRC.crc8 (firstn 19 (frame_of (repeat 1500 8))); 0xEE].
Proof. reflexivity. Qed.

(** ** The idle sequence and the end of a run *)

Lemma run_ticks_stopped (n : nat) (s : ThrusterGUI) :
  timer_active s = false -> run_ticks n s = s.
Proof.
  intros H. induction n as [|n IH]; simpl; [reflexivity|].
  unfold timer_event. rewrite H. simpl. exact IH.
Qed.

(** On an open link the idle sequence stops the timer, writes the idle
    frame, closes the port and clears the status flag. *)
Lemma serial_send_idle_open (s : ThrusterGUI) :
  serial_status s = 1 ->
  serial_conn s = Some true ->
  serial_send_idle s
  = (Ok tt,
     set_serial_status 0
       (set_serial_conn (Some false)
          (set_wire (wire s ++ [frame_of (repeat 1500 8)])
             (set_timer false (timer_interval s) s)))).
Proof.
  intros Hstat Hopen. unfold serial_send_idle, bind at 1, gets.
  rewrite Hstat. cbn [Z.eqb]. unfold bind at 1, ret.
  unfold bind at 1, timer_stop, modify.
  unfold bind at 1.
  rewrite (serial_send_open (repeat 1500 8)) by (try reflexivity; assumption).
  unfold bind, conn_close, modify. attrs. rewrite Hopen. reflexivity.
Qed.

Lemma send_pwms_past_bound (s : ThrusterGUI) :
  step_bound s < Z.of_nat (com_step s) -> send_pwms s = serial_send_idle s.
Proof.
  intros H. unfold send_pwms, bind, gets.
  now apply Z.leb_gt in H as ->.
Qed.

(** The [else] branch of the tick handler.  With the cursor past the bound
    that [send_pwms] computes, the tick stops the timer, writes one idle
    frame (eight times 1500) and closes the port, and no later tick writes
    anything.  A run left to itself never has its cursor there (see the end
    of a run below); a run whose frequency was lowered has. *)
Theorem past_bound_tick_idles (s : ThrusterGUI) :
  timer_active s = true ->
  serial_status s = 1 ->
  serial_conn s = Some true ->
  step_bound s < Z.of_nat (com_step s) ->
  exists s' : ThrusterGUI,
    timer_event s = (Ok tt, s') /\
    timer_active s' = false /\
    wire s' = wire s ++ [frame_of (repeat 1500 8)] /\
    serial_conn s' = Some false /\
    serial_status s' = 0 /\
    forall n : nat, wire (run_ticks n s') = wire s'.
Proof.
  intros Hact Hstat Hopen Hpast.
  eexists. split.
  - unfold timer_event. rewrite Hact, (send_pwms_past_bound s Hpast).
    now apply serial_send_idle_open.
  - repeat split. intros n. now rewrite run_ticks_stopped.
Qed.

Lemma past_bound_tick_idles_witness :
  step_bound Sample.lowered_mid_run < Z.of_nat (com_step Sample.lowered_mid_run) /\
  exists s' : ThrusterGUI,
    timer_event Sample.lowered_mid_run = (Ok tt, s') /\
    timer_active s' = false /\
    wire s' = wire Sample.lowered_mid_run ++ [frame_of (repeat 1500 8)] /\
    serial_conn s' = Some false /\
    serial_status s' = 0 /\
    forall n : nat, wire (run_ticks n s') = wire s'.
Proof.
  assert (H : step_bound Sample.lowered_mid_run
              < Z.of_nat (com_step Sample.lowered_mid_run)) by (vm_compute; reflexivity).
  split; [exact H|].
  apply (past_bound_tick_idles Sample.lowered_mid_run);
    [reflexivity | reflexivity | reflexivity | exact H].
Defined.

(** ** The tick handler on a data step *)

Lemma get_pwms_loop_length (cached : list (list Q * list npfloat)) (step : nat)
    (channels : list nat) (acc : list Z) :
  (List.length (get_pwms_loop cached step channels acc)
   <= List.length acc + List.length channels)%nat.
Proof.
  revert acc. induction channels as [|i rest IH]; intros acc; simpl.
  - lia.
  - destruct (cached_sample cached i step) as [v|e].
    + specialize (IH (acc ++ [v])). rewrite length_app in IH. simpl in IH. lia.
    + lia.
Qed.


(** When some channel has none, the swallowed exception leaves the vector
    short. *)
Lemma get_pwms_loop_short (cached : list (list Q * list npfloat)) (step : nat)
    (channels : list nat) (i : nat) (e : exn) :
  In i channels ->
  cached_sample cached i step = Raise e ->
  forall acc,
    (List.length (get_pwms_loop cached step channels acc)
     < List.length acc + List.length channels)%nat.
Proof.
  intros Hin Hfail. induction channels as [|j rest IH]; intros acc; simpl.
  - contradiction.
  - destruct (cached_sample cached j step) as [v|e'] eqn:Hj.
    + destruct Hin as [->|Hin]; [congruence|].
      specialize (IH Hin (acc ++ [v])). rewrite length_app in IH. simpl in IH. lia.
    + lia.
Qed.

Lemma send_pwms_within_bound (s : ThrusterGUI) :
  Z.of_nat (com_step s) <= step_bound s ->
  send_pwms s
  = (pwms <- get_pwms (com_step s) ;;
     serial_send pwms ;;;
     modify (fun s => set_com_step (S (com_step s)) s)) s.
Proof.
  intros H. unfold send_pwms, bind at 1 2, gets.
  now apply Z.leb_le in H as ->.
Qed.

Lemma serial_send_wrong_count (pwm_values : list Z) (s : ThrusterGUI) :
  List.length pwm_values <> 8%nat ->
  serial_send pwm_values s = (Raise ValueError, s).
Proof.
  intros H. unfold serial_send.
  apply Nat.eqb_neq in H. rewrite H. reflexivity.
Qed.





(** ** Starting a run and rebuilding the cache *)

Lemma for_each_invariant {A} (P : ThrusterGUI -> Prop) (body : A -> M unit) :
  (forall x s r s', body x s = (r, s') -> P s -> P s') ->
  forall xs s r s', for_each xs body s = (r, s') -> P s -> P s'.
Proof.
  intros Hbody xs. induction xs as [|x xs IH]; intros s r s' Hrun HP; simpl in Hrun.
  - inversion Hrun. now subst.
  - unfold bind in Hrun. destruct (body x s) as [[[]|e] s1] eqn:Hx.
    + eapply IH; [exact Hrun|]. eapply Hbody; eauto.
    + inversion Hrun. subst. eapply Hbody; eauto.
Qed.

(** A loop whose body raises at [i] whenever [P] holds, and keeps [P]
    otherwise, cannot finish a list that contains [i]. *)
Lemma for_each_raises {A} (P : ThrusterGUI -> Prop) (body : A -> M unit) (i : A) :
  (forall x s r s', body x s = (r, s') -> P s -> P s') ->
  (forall s, P s -> exists e s', body i s = (Raise e, s')) ->
  forall xs, In i xs ->
    forall s, P s -> exists e s', for_each xs body s = (Raise e, s').
Proof.
  intros Hkeep Hraise xs. induction xs as [|x xs IH]; intros Hin s HP.
  - contradiction.
  - simpl. unfold bind. destruct (body x s) as [[[]|e] s1] eqn:Hx.
    + destruct Hin as [->|Hin].
      * destruct (Hraise s HP) as [e [s' He]]. congruence.
      * apply IH; [exact Hin|]. eapply Hkeep; eauto.
    + eauto.
Qed.

(** [compute_max_time] assigns [max_time] only. *)
Lemma compute_max_time_points (s s' : ThrusterGUI) (r : result unit)
    (pts : list (list waypoint)) :
  compute_max_time s = (r, s') -> points s = pts -> points s' = pts.
Proof.
  unfold compute_max_time, bind at 1, modify. intros Hrun Hpts.
  eapply (for_each_invariant (fun st => points st = pts)); [|exact Hrun|exact Hpts].
  clear. intros i s r s'. unfold bind, gets, lift, modify, ret.
  destruct (getitem (points s) i) as [[|w p]|e]; intros H; inversion H; subst; auto.
  destruct (Py.Qltb _ _); inversion H1; subst; auto.
Qed.

(** One case of [serial_start] on a store without waypoints: run the call,
    then read off what it left. *)
Ltac start_case :=
  do 2 eexists; split; [reflexivity|]; attrs;
  do 6 (split; [reflexivity|]);
  split; intros Hc;
  solve [ repeat split; reflexivity
        | destruct Hc as [Hc1 Hc2]; congruence
        | destruct Hc as [Hc|Hc]; discriminate ].

Section RebuildFacts.

Variable interp1d : list Q -> list Z -> string -> result (Q -> npfloat).
Variable BarycentricInterpolator : list Q -> list Z -> result (Q -> npfloat).

(** The loop body of [compute_pwms] assigns [cached_pwms] only. *)
Lemma compute_pwms_channel_points (i : nat) (s s' : ThrusterGUI) (r : result unit) :
  compute_pwms_channel interp1d BarycentricInterpolator i s = (r, s') ->
  points s' = points s.
Proof.
  unfold compute_pwms_channel, sample_times, bind, gets, lift, modify, raise.
  repeat match goal with
         | |- context [match ?x with _ => _ end] => destruct x
         end; intros H; inversion H; reflexivity.
Qed.

(** On a channel without waypoints the loop body raises at once. *)
Lemma compute_pwms_channel_empty (i : nat) (s : ThrusterGUI) :
  nth_error (points s) i = Some [] ->
  compute_pwms_channel interp1d BarycentricInterpolator i s = (Raise ValueError, s).
Proof.
  intros H. unfold compute_pwms_channel, bind, gets, lift, getitem.
  rewrite H. reflexivity.
Qed.

(** C6 on the code. A store with a channel that has no waypoint is never
    rebuilt: [compute_pwms] ends in an exception, whatever the other
    channels hold and whatever scipy answers for them. *)
Theorem compute_pwms_empty_channel_raises (s : ThrusterGUI) (i : nat) :
  (i < 8)%nat ->
  nth_error (points s) i = Some [] ->
  exists (e : exn) (s' : ThrusterGUI),
    compute_pwms interp1d BarycentricInterpolator s = (Raise e, s').
Proof.
  intros Hi Hempty. unfold compute_pwms, bind at 1.
  destruct (compute_max_time s) as [[[]|e] s1] eqn:Hmax; [|eauto].
  pose proof (compute_max_time_points _ _ _ _ Hmax eq_refl) as Hpts.
  apply (for_each_raises (fun st => points st = points s)) with (i := i).
  - intros x st r st' Hrun HP.
    rewrite (compute_pwms_channel_points _ _ _ _ Hrun). exact HP.
  - intros st HP. exists ValueError, st.
    apply compute_pwms_channel_empty. now rewrite HP.
  - apply in_seq. unfold THRUSTER_COUNT. lia.
  - exact Hpts.
Qed.

(** C5, as the code has it. With no waypoint on any channel, [serial_start]
    always ends in an exception and starts nothing: timer, wire, cursor,
    cache and waypoints are as before.  The link is not: the port is
    (re)opened first, so when it opens the call ends in the [ValueError] of
    the rebuild with the link open, and when it does not the call ends in
    [ConnectionError] with the link closed. *)
Theorem serial_start_without_waypoints (s : ThrusterGUI) :
  points s = repeat [] 8 ->
  serial_status s = 0 \/ serial_status s = 1 ->
  (serial_status s = 1 -> serial_conn s = Some true) ->
  exists (e : exn) (s' : ThrusterGUI),
    serial_start interp1d BarycentricInterpolator s = (Raise e, s') /\
    timer_active s' = timer_active s /\
    timer_interval s' = timer_interval s /\
    wire s' = wire s /\
    com_step s' = com_step s /\
    cached_pwms s' = cached_pwms s /\
    points s' = points s /\
    (serial_port s <> None /\ port_openable s = true ->
       e = ValueError /\ serial_status s' = 1 /\ serial_conn s' = Some true) /\
    (serial_port s = None \/ port_openable s = false ->
       e = ConnectionError /\ serial_status s' = 0).
Proof.
  intros Hpts Hstat Hconn.
  destruct s as [kind baud port freq cached tact tint conn status pts mt step
                 openable w fs].
  cbn in Hpts, Hstat, Hconn. subst pts.
  destruct Hstat as [-> | ->].
  - destruct port as [p|], openable; start_case.
  - rewrite (Hconn eq_refl).
    destruct port as [p|], openable; start_case.
Qed.

End RebuildFacts.

Lemma serial_start_without_waypoints_witness :
  exists (e : exn) (s' : ThrusterGUI),
    serial_start Sample.interp1d Sample.BarycentricInterpolator Sample.idle_empty
    = (Raise e, s') /\
    timer_active s' = timer_active Sample.idle_empty /\
    timer_interval s' = timer_interval Sample.idle_empty /\
    wire s' = wire Sample.idle_empty /\
    com_step s' = com_step Sample.idle_empty /\
    cached_pwms s' = cached_pwms Sample.idle_empty /\
    points s' = points Sample.idle_empty /\
    (serial_port Sample.idle_empty <> None /\ port_openable Sample.idle_empty = true ->
       e = ValueError /\ serial_status s' = 1 /\ serial_conn s' = Some true) /\
    (serial_port Sample.idle_empty = None \/ port_openable Sample.idle_empty = false ->
       e = ConnectionError /\ serial_status s' = 0).
Proof.
  apply (serial_start_without_waypoints
           Sample.interp1d Sample.BarycentricInterpolator Sample.idle_empty).
  - reflexivity.
  - left. reflexivity.
  - intros H. discriminate H.
Defined.

(** C5 as stated fails on the link state: a closed link with a port that
    opens is left open by the failed start. *)
Lemma failed_start_leaves_link_open :
  points Sample.idle_empty = repeat [] 8 /\
  serial_status Sample.idle_empty = 0 /\
  serial_conn Sample.idle_empty = None /\
  exists s' : ThrusterGUI,
    serial_start Sample.interp1d Sample.BarycentricInterpolator Sample.idle_empty
    = (Raise ValueError, s') /\
    serial_status s' = 1 /\
    serial_conn s' = Some true.
Proof.
  repeat (split; [reflexivity|]).
  eexists. split; [reflexivity|]. split; reflexivity.
Qed.

Lemma compute_pwms_empty_channel_raises_witness :
  exists (e : exn) (s' : ThrusterGUI),
    compute_pwms Sample.interp1d Sample.BarycentricInterpolator
      Sample.first_channel_only
    = (Raise e, s').
Proof.
  apply (compute_pwms_empty_channel_raises
           Sample.interp1d Sample.BarycentricInterpolator
           Sample.first_channel_only 1).
  - lia.
  - reflexivity.
Defined.

(** The same store, run: the first channel is cached, the second one ends
    the rebuild with the [ValueError] of the unpacking. *)
Example compute_pwms_first_channel_only :
  exists s' : ThrusterGUI,
    compute_pwms Sample.interp1d Sample.BarycentricInterpolator
      Sample.first_channel_only
    = (Raise ValueError, s') /\
    nth_error (cached_pwms s') 0 = Some ([0%Q], [Fin 1500]) /\
    nth_error (cached_pwms s') 1 = Some ([], []).
Proof.
  eexists. split; [reflexivity|]. split; reflexivity.
Qed.

(** ** The sampling grid and the persisted sequence *)

Section GridFacts.

Variable interp1d : list Q -> list Z -> string -> result (Q -> npfloat).
Variable BarycentricInterpolator : list Q -> list Z -> result (Q -> npfloat).

(** The loop body of [compute_pwms] on a channel whose curve scipy builds. *)
Lemma compute_pwms_channel_built (i : nat) (s : ThrusterGUI) (p : list waypoint)
    (f : Q -> npfloat) (t : list Q) (cached' : list (list Q * list npfloat)) :
  nth_error (points s) i = Some p ->
  p <> [] ->
  select_curve interp1d BarycentricInterpolator (selected_interpolation s)
    (map fst p) (map snd p) = Ok (Some f) ->
  sample_times s = (Ok t, s) ->
  setitem (cached_pwms s) i (t, map (Py.clip 1100 1900) (map f t)) = Ok cached' ->
  compute_pwms_channel interp1d BarycentricInterpolator i s
  = (Ok tt, set_cached_pwms cached' s).
Proof.
  intros Hp Hne Hsel Ht Hset.
  unfold compute_pwms_channel, bind, gets, lift, getitem, modify.
  rewrite Hp. destruct p as [|w p]; [congruence|].
  cbn [Py.unzip_points fst snd]. rewrite Hsel, Ht, Hset. reflexivity.
Qed.

(** C8 on the code. Eight channels flat at 1500 from t = 0 to t = 1.5,
    sampled at 2 Hz: the rebuild caches four samples a channel, at 0, 2/3,
    4/3 and 2, where the count by the rounded end time is five (a sample
    every half second from 0 to 2). *)
Theorem compute_pwms_fractional_end (f : Q -> npfloat) :
  interp1d [0%Q; 3 # 2] [1500; 1500] "linear" = Ok f ->
  exists s' : ThrusterGUI,
    compute_pwms interp1d BarycentricInterpolator Sample.fractional_end = (Ok tt, s') /\
    max_time s' = 3 # 2 /\
    output_frequency s' = 2 /\
    cached_pwms s'
    = repeat ([0%Q; 2 # 3; 4 # 3; 2%Q],
              map (Py.clip 1100 1900) (map f [0%Q; 2 # 3; 4 # 3; 2%Q])) 8 /\
    Py.round (max_time s') * output_frequency s' + 1 = 5.
Proof.
  intros H.
  assert (Hsel : select_curve interp1d BarycentricInterpolator "linear"
                   [0%Q; 3 # 2] [1500; 1500] = Ok (Some f)).
  { unfold select_curve. cbn [String.eqb Ascii.eqb Bool.eqb]. now rewrite H. }
  set (grid := [0%Q; 2 # 3; 4 # 3; 2%Q]).
  set (curve := (grid, map (Py.clip 1100 1900) (map f grid))).
  set (s1 := set_max_time (3 # 2) Sample.fractional_end).
  assert (Hstep : forall (k : nat) (c c' : list (list Q * list npfloat)),
             (k < 8)%nat ->
             setitem c k curve = Ok c' ->
             compute_pwms_channel interp1d BarycentricInterpolator k
               (set_cached_pwms c s1)
             = (Ok tt, set_cached_pwms c' s1)).
  { intros k c c' Hk Hset.
    rewrite (compute_pwms_channel_built k (set_cached_pwms c s1)
               [(0%Q, 1500); (3 # 2, 1500)] f grid c').
    - reflexivity.
    - do 8 (destruct k as [|k]; [reflexivity|]). lia.
    - discriminate.
    - exact Hsel.
    - reflexivity.
    - exact Hset. }
  exists (set_cached_pwms (repeat curve 8) s1). split.
  - unfold compute_pwms, bind at 1.
    replace (compute_max_time Sample.fractional_end)
      with (Ok tt, set_cached_pwms (repeat ([], []) 8) s1) by reflexivity.
    unfold THRUSTER_COUNT. cbn [seq for_each repeat].
    do 8 (unfold bind at 1;
          erewrite Hstep; [ | lia | cbn [setitem]; reflexivity ]).
    reflexivity.
  - repeat split; reflexivity.
Qed.

(** C9 on the code. A sequence whose first channel is empty and whose
    second channel holds one waypoint is saved, then loaded by a fresh
    controller: the load gives up at the first channel (the exception is
    swallowed), and the second channel's waypoint is not restored. *)
Theorem load_stops_at_empty_channel :
  let saved := Sample.second_channel_only in
  let fs := files (snd (json_save_sequence "sequence.json" saved)) in
  let loaded :=
    json_load_sequence interp1d BarycentricInterpolator "sequence.json" (init true fs) in
  nth_error (points saved) 1 = Some [(0%Q, 1500)] /\
  fst loaded = Ok tt /\
  points (snd loaded) = repeat [] 8 /\
  selected_interpolation (snd loaded) = selected_interpolation saved /\
  output_frequency (snd loaded) = output_frequency saved.
Proof.
  cbv zeta. repeat split; reflexivity.
Qed.

End GridFacts.

Lemma compute_pwms_fractional_end_witness :
  exists s' : ThrusterGUI,
    compute_pwms Sample.interp1d Sample.BarycentricInterpolator Sample.fractional_end
    = (Ok tt, s') /\
    max_time s' = 3 # 2 /\
    output_frequency s' = 2 /\
    cached_pwms s'
    = repeat ([0%Q; 2 # 3; 4 # 3; 2%Q],
              map (Py.clip 1100 1900)
                (map (fun t => Fin (inject_Z (Sample.hold [0%Q; 3 # 2] [1500; 1500] 1500 t)))
                     [0%Q; 2 # 3; 4 # 3; 2%Q])) 8 /\
    Py.round (max_time s') * output_frequency s' + 1 = 5.
Proof.
  apply (compute_pwms_fractional_end Sample.interp1d Sample.BarycentricInterpolator).
  reflexivity.
Defined.

(** ** Changing the frequency in the middle of a run *)

Lemma change_frequency_keeps (g : Z) (s : ThrusterGUI) :
  let s' := snd (change_frequency g s) in
  output_frequency s' = g /\
  cached_pwms s' = cached_pwms s /\
  com_step s' = com_step s /\
  max_time s' = max_time s /\
  wire s' = wire s.
Proof.
  unfold change_frequency, bind, modify, gets, floordiv, timer_start, raise, ret.
  attrs. destruct (timer_active s); attrs; [destruct (g =? 0)|]; attrs; repeat split.
Qed.

(** [serial_send] either writes one frame for eight values or raises and
    changes nothing. *)
Lemma serial_send_effect (pwm_values : list Z) (s s' : ThrusterGUI) (r : result unit) :
  serial_send pwm_values s = (r, s') ->
  (r = Ok tt /\ List.length pwm_values = 8%nat /\
   exists d, s' = set_wire (wire s ++ [d]) s) \/
  ((exists e, r = Raise e) /\ s' = s).
Proof.
  unfold serial_send, bind, lift, gets, raise, conn_write.
  destruct (Nat.eqb (List.length pwm_values) 8) eqn:Hlen; cbn [negb].
  - apply Nat.eqb_eq in Hlen.
    repeat match goal with
           | |- context [if ?c then _ else _] => destruct c
           | |- context [match ?x with _ => _ end] => destruct x
           end; intros H; inversion H; eauto 6.
  - intros H. inversion H. eauto.
Qed.

Lemma setup_serial_keeps (s s' : ThrusterGUI) (r : result unit) :
  setup_serial s = (r, s') ->
  cached_pwms s' = cached_pwms s /\ com_step s' = com_step s /\
  wire s' = wire s /\ timer_active s' = timer_active s.
Proof.
  unfold setup_serial, bind, gets, modify, ret, conn_close, serial_Serial.
  repeat match goal with
         | |- context [if ?c then _ else _] => destruct c
         | |- context [match ?x with _ => _ end] => destruct x eqn:?
         end; intros H; inversion H; attrs; repeat split.
Qed.

(** The idle sequence keeps the cache and the cursor, and writes at most one
    frame, and only after it stopped the timer. *)
Lemma serial_send_idle_effect (s s' : ThrusterGUI) (r : result unit) :
  serial_send_idle s = (r, s') ->
  cached_pwms s' = cached_pwms s /\ com_step s' = com_step s /\
  ((wire s' = wire s /\ (timer_active s' = false \/ timer_active s' = timer_active s)) \/
   (List.length (wire s') = S (List.length (wire s)) /\ timer_active s' = false)).
Proof.
  unfold serial_send_idle, bind at 1, gets. unfold bind at 1.
  destruct ((if serial_status s =? 0 then setup_serial else ret tt) s)
    as [[[]|e] s1] eqn:H1.
  - assert (K : cached_pwms s1 = cached_pwms s /\ com_step s1 = com_step s /\
                wire s1 = wire s /\ timer_active s1 = timer_active s).
    { destruct (serial_status s =? 0).
      - eapply setup_serial_keeps; eauto.
      - inversion H1. auto. }
    destruct K as (Kc & Kk & Kw & Kt).
    unfold bind at 1, timer_stop, modify. unfold bind at 1.
    destruct (serial_send (repeat 1500 8) (set_timer false (timer_interval s1) s1))
      as [[[]|e] s2] eqn:H2.
    + apply serial_send_effect in H2 as [(_ & _ & d & ->) | (_ & ->)];
        unfold bind, conn_close, modify; attrs;
        destruct (serial_conn s1); intros H; inversion H; attrs;
        rewrite ?length_app, ?Kc, ?Kk, ?Kw; cbn [List.length]; intuition lia.
    + apply serial_send_effect in H2 as [(_ & _ & d & ->) | (_ & ->)];
        intros H; inversion H; attrs;
        rewrite ?length_app, ?Kc, ?Kk, ?Kw; cbn [List.length]; intuition lia.
  - intros H. inversion H. subst.
    destruct (serial_status s =? 0).
    + apply setup_serial_keeps in H1. intuition.
    + inversion H1.
Qed.

Lemma eight_samples_in_range (cached : list (list Q * list npfloat)) (step : nat)
    (t : list Q) (y : list npfloat) :
  List.length (get_pwms_loop cached step (seq 0 8) []) = 8%nat ->
  nth_error cached 0 = Some (t, y) ->
  (step < List.length y)%nat.
Proof.
  intros Hlen Hn. destruct (cached_sample cached 0 step) as [v|e] eqn:E.
  - unfold cached_sample, getitem in E. rewrite Hn in E. cbn [snd] in E.
    destruct (nth_error y step) eqn:N; [|discriminate].
    apply nth_error_Some. congruence.
  - assert (Hin : In 0%nat (seq 0 8)) by (apply in_seq; lia).
    pose proof (get_pwms_loop_short _ _ _ _ _ Hin E []) as Hshort.
    change (List.length (@nil Z) + List.length (seq 0 8))%nat with 8%nat in Hshort.
    lia.
Qed.

(** One tick of a running timer: the cache stays, the cursor moves by at
    most one and stays within the first channel's samples, and a frame is
    written only against a cursor step or the stopping of the timer. *)
Lemma send_pwms_effect (s s' : ThrusterGUI) (r : result unit)
    (t : list Q) (y : list npfloat) :
  timer_active s = true ->
  nth_error (cached_pwms s) 0 = Some (t, y) ->
  (com_step s <= List.length y)%nat ->
  send_pwms s = (r, s') ->
  cached_pwms s' = cached_pwms s /\
  (com_step s <= com_step s' <= List.length y)%nat /\
  (List.length (wire s') + com_step s + armed s'
   <= List.length (wire s) + com_step s' + 1)%nat.
Proof.
  intros Hact Hn Hle. unfold send_pwms, bind at 1 2, gets.
  destruct (Z.of_nat (com_step s) <=? step_bound s).
  - unfold bind at 1, get_pwms, gets, THRUSTER_COUNT. unfold bind at 1.
    destruct (serial_send (get_pwms_loop (cached_pwms s) (com_step s) (seq 0 8) []) s)
      as [r1 s1] eqn:H1.
    apply serial_send_effect in H1 as [(-> & Hlen & d & ->) | ((e & ->) & ->)].
    + pose proof (eight_samples_in_range _ _ _ _ Hlen Hn) as Hin.
      unfold modify. intros Hr. inversion Hr. unfold armed. attrs.
      rewrite Hact, length_app. cbn [List.length]. repeat split; lia.
    + intros Hr. inversion Hr. subst. unfold armed. rewrite Hact.
      repeat split; lia.
  - intros H. apply serial_send_idle_effect in H as (Hc & Hk & Hw).
    unfold armed. rewrite Hc, Hk.
    split; [reflexivity|]. split; [lia|].
    destruct Hw as [[Hw [Ht | Ht]] | [Hw Ht]]; rewrite ?Hw, ?Ht, ?Hact; lia.
Qed.

Lemma run_ticks_invariant (s0 : ThrusterGUI) (t : list Q) (y : list npfloat) :
  nth_error (cached_pwms s0) 0 = Some (t, y) ->
  forall (n : nat) (s : ThrusterGUI),
    run_invariant s0 (List.length y) s ->
    run_invariant s0 (List.length y) (run_ticks n s).
Proof.
  intros Hn n. induction n as [|n IH]; intros s Hinv; simpl; [exact Hinv|].
  apply IH. unfold timer_event.
  destruct (timer_active s) eqn:Hact; [|exact Hinv].
  destruct Hinv as (Hc & Hk & Hw).
  destruct (send_pwms s) as [r s'] eqn:Hs. cbn [snd].
  assert (Hn' : nth_error (cached_pwms s) 0 = Some (t, y)) by now rewrite Hc.
  destruct (send_pwms_effect s s' r t y Hact Hn' (proj2 Hk) Hs) as (Hc' & Hk' & Hw').
  unfold armed in Hw. rewrite Hact in Hw.
  unfold run_invariant. rewrite Hc', Hc. repeat split; lia.
Qed.

Lemma int_is_floor (x : Q) : (0 <= x)%Q -> Py.int x = Qfloor x.
Proof.
  destruct x as [n d]. unfold Qle, Py.int, Qfloor. cbn [Qnum Qden].
  intros H. apply Z.quot_div_nonneg; lia.
Qed.

(** With a run of at least a second, a higher frequency gives a higher bound. *)
Lemma bound_raised (T : Q) (f g : Z) :
  (1 <= T)%Q -> 0 <= f < g ->
  Py.int (T * inject_Z f) + 1 <= Py.int (T * inject_Z g).
Proof.
  intros HT [Hf Hfg].
  assert (Hf' : (0 <= inject_Z f)%Q) by (unfold Qle; cbn; lia).
  assert (Hg' : (inject_Z f + 1 <= inject_Z g)%Q) by (unfold Qle; cbn; lia).
  assert (H0f : (0 <= T * inject_Z f)%Q) by nra.
  assert (H0g : (0 <= T * inject_Z g)%Q) by nra.
  rewrite (int_is_floor _ H0f), (int_is_floor _ H0g).
  pose proof (Qfloor_le (T * inject_Z f)) as Hfl.
  assert (Hle : (inject_Z (Qfloor (T * inject_Z f) + 1) <= T * inject_Z g)%Q).
  { rewrite inject_Z_plus. change (inject_Z 1) with 1%Q. nra. }
  apply Qfloor_resp_le in Hle. now rewrite Qfloor_Z in Hle.
Qed.

(** C10, as the code has it. [change_frequency] leaves the cached arrays
    and the cursor as they are, and from then on the end-of-run test uses
    the bound of the new frequency.  Lowering the frequency can end the run
    early: once the cursor is past the new bound, the next tick is the idle
    sequence.  Raising it cannot lengthen the run: whatever the bound, the
    cursor never passes the length of the cached arrays, and the frames
    written are at most one a cursor step plus the idle frame.  The new
    bound is above the length of the cache built at the old frequency when
    the run lasts a second or more. *)
Theorem change_frequency_mid_run (s : ThrusterGUI) (g : Z)
    (t : list Q) (y : list npfloat) :
  nth_error (cached_pwms s) 0 = Some (t, y) ->
  Z.of_nat (List.length y) = step_bound s ->
  (com_step s <= List.length y)%nat ->
  let s' := snd (change_frequency g s) in
  cached_pwms s' = cached_pwms s /\
  com_step s' = com_step s /\
  step_bound s' = Py.int (max_time s * inject_Z g) + 1 /\
  (timer_active s' = true ->
   serial_status s' = 1 ->
   serial_conn s' = Some true ->
   step_bound s' < Z.of_nat (com_step s') ->
   timer_event s'
   = (Ok tt,
      set_serial_status 0
        (set_serial_conn (Some false)
           (set_wire (wire s' ++ [frame_of (repeat 1500 8)])
              (set_timer false (timer_interval s') s'))))) /\
  (forall n : nat,
     (com_step (run_ticks n s') <= List.length y)%nat /\
     (List.length (wire (run_ticks n s'))
      <= List.length (wire s') + (List.length y - com_step s') + 1)%nat) /\
  ((1 <= max_time s)%Q ->
   0 <= output_frequency s < g ->
   Z.of_nat (List.length y) < step_bound s').
Proof.
  intros Hn Hlen Hle s'.
  destruct (change_frequency_keeps g s) as (Hf & Hc & Hk & Hm & Hw).
  fold s' in Hf, Hc, Hk, Hm, Hw.
  assert (Hb : step_bound s' = Py.int (max_time s * inject_Z g) + 1)
    by (unfold step_bound; now rewrite Hm, Hf).
  repeat split; try assumption.
  - intros Hact Hstat Hopen Hpast. unfold timer_event.
    rewrite Hact, (send_pwms_past_bound s' Hpast).
    now apply serial_send_idle_open.
  - assert (Hn' : nth_error (cached_pwms s') 0 = Some (t, y)) by now rewrite Hc.
    assert (Hinv : run_invariant s' (List.length y) s').
    { unfold run_invariant, armed. repeat split; try lia.
      destruct (timer_active s'); lia. }
    destruct (run_ticks_invariant s' t y Hn' n s' Hinv) as (_ & Hk' & _). lia.
  - assert (Hn' : nth_error (cached_pwms s') 0 = Some (t, y)) by now rewrite Hc.
    assert (Hinv : run_invariant s' (List.length y) s').
    { unfold run_invariant, armed. repeat split; try lia.
      destruct (timer_active s'); lia. }
    destruct (run_ticks_invariant s' t y Hn' n s' Hinv) as (_ & Hk' & Hw'). lia.
  - intros HT Hfg. rewrite Hb, Hlen. unfold step_bound.
    pose proof (bound_raised (max_time s) (output_frequency s) g HT Hfg). lia.
Qed.

Lemma change_frequency_mid_run_witness :
  (Z.of_nat 21 = step_bound Sample.mid_run_20hz /\
   step_bound (snd (change_frequency 1 Sample.mid_run_20hz)) = 2 /\
   timer_active (snd (timer_event (snd (change_frequency 1 Sample.mid_run_20hz)))) = false)
  /\
  (Z.of_nat 2 = step_bound Sample.just_started /\
   Z.of_nat 2 < step_bound (snd (change_frequency 100 Sample.just_started)) /\
   forall n : nat,
     (com_step (run_ticks n (snd (change_frequency 100 Sample.just_started))) <= 2)%nat).
Proof.
  split.
  - assert (H : Z.of_nat 21 = step_bound Sample.mid_run_20hz) by reflexivity.
    destruct (change_frequency_mid_run Sample.mid_run_20hz 1
                (map (fun i => Qred (inject_Z (Z.of_nat i) / 20)) (seq 0 21))
                (repeat (Fin 1500) 21))
      as (_ & _ & Hb & Hidle & _).
    + reflexivity.
    + exact H.
    + cbn. lia.
    + split; [exact H|]. split; [exact Hb|].
      rewrite Hidle; [reflexivity | reflexivity | reflexivity | reflexivity
                      | vm_compute; reflexivity].
  - assert (H : Z.of_nat 2 = step_bound Sample.just_started) by reflexivity.
    destruct (change_frequency_mid_run Sample.just_started 100
                [0%Q; 1%Q] [Fin 1500; Fin 1500])
      as (_ & _ & _ & _ & Hrun & Hup).
    + reflexivity.
    + exact H.
    + cbn. lia.
    + split; [exact H|]. split.
      * apply Hup; [vm_compute; discriminate | cbn; lia].
      * intros n. exact (proj1 (Hrun n)).
Defined.

(** C10 as stated fails on its two consequences.  After the frequency of a
    run with two cached samples a channel is raised from 1 Hz to 100 Hz the
    bound is 101, yet the run writes two data frames, as many as the cache
    holds, and the cursor stays at 2.  And with every waypoint at t = 0 the
    bound is 1 at any frequency, the length of the cached arrays. *)
Lemma raised_frequency_run_stays_cache_bound :
  (step_bound (snd (change_frequency 100 Sample.just_started)) = 101 /\
   com_step (run_ticks 150 (snd (change_frequency 100 Sample.just_started))) = 2%nat /\
   wire (run_ticks 150 (snd (change_frequency 100 Sample.just_started)))
   = wire Sample.just_started
     ++ [frame_of (repeat 1500 8); frame_of (repeat 1500 8)])
  /\
  (output_frequency Sample.single_started < 100 /\
   step_bound (snd (change_frequency 100 Sample.single_started)) = 1 /\
   nth_error (cached_pwms (snd (change_frequency 100 Sample.single_started))) 0
   = Some ([0%Q], [Fin 1500])).
Proof.
  split.
  - split; [reflexivity|]. split; vm_compute; reflexivity.
  - split; [reflexivity|]. split; reflexivity.
Qed.

(** * Further properties of the code *)

(** ** The CRC as a check value *)

Module CRCDetect.
Import CRC CRCCheck CRCInverse CRCFacts.

Lemma shift_undone_all : forallb shift_undone all_octets = true.
Proof. vm_compute. reflexivity. Qed.

Lemma crc8_bit_injective (a b : Z) :
  is_byte a -> is_byte b -> crc8_bit a = crc8_bit b -> a = b.
Proof.
  intros Ha Hb H.
  pose proof (proj1 (forallb_forall _ _) shift_undone_all a (octet_listed a Ha)) as Ea.
  pose proof (proj1 (forallb_forall _ _) shift_undone_all b (octet_listed b Hb)) as Eb.
  unfold shift_undone in Ea, Eb. apply Z.eqb_eq in Ea, Eb.
  rewrite <- Ea, <- Eb, H. reflexivity.
Qed.

Lemma shifts_injective (n : nat) (a b : Z) :
  is_byte a -> is_byte b ->
  Nat.iter n crc8_bit a = Nat.iter n crc8_bit b -> a = b.
Proof.
  intros Ha Hb. induction n as [|n IH]; simpl; [auto|].
  intros H. apply IH. apply crc8_bit_injective; try assumption.
  - apply (shifts_agree n a Ha).
  - apply (shifts_agree n b Hb).
Qed.

Lemma lxor_cancel_l (r a b : Z) : Z.lxor r a = Z.lxor r b -> a = b.
Proof.
  intros H.
  rewrite <- (Z.lxor_0_l a), <- (Z.lxor_0_l b), <- (Z.lxor_nilpotent r).
  rewrite !Z.lxor_assoc. now rewrite H.
Qed.

Lemma lxor_cancel_r (a b p : Z) : Z.lxor a p = Z.lxor b p -> a = b.
Proof. rewrite !(Z.lxor_comm _ p). apply lxor_cancel_l. Qed.

Lemma crc8_byte_octet (r b : Z) : is_byte r -> is_byte b -> is_byte (crc8_byte r b).
Proof.
  intros Hr Hb. unfold crc8_byte. apply shifts_agree. now apply lxor_octet.
Qed.

(** Two different registers stay different through any further octets. *)
Lemma fold_crc8_byte_injective (post : list Z) :
  Forall is_byte post ->
  forall r r', is_byte r -> is_byte r' ->
    fold_left crc8_byte post r = fold_left crc8_byte post r' -> r = r'.
Proof.
  induction 1 as [|p post Hp _ IH]; intros r r' Hr Hr'; simpl; [auto|].
  intros H. apply IH in H; try now apply crc8_byte_octet.
  unfold crc8_byte in H.
  apply shifts_injective in H; try now apply lxor_octet.
  now apply lxor_cancel_r in H.
Qed.

End CRCDetect.

Lemma crc8_self_check (data : list Z) : CRC.crc8 (data ++ [CRC.crc8 data]) = 0.
Proof.
  unfold CRC.crc8 at 1. rewrite fold_left_app. cbn [fold_left].
  fold (CRC.crc8 data). unfold CRC.crc8_byte.
  rewrite Z.lxor_nilpotent. reflexivity.
Qed.

Lemma frame_of_first_twenty (pwm_values : list Z) :
  List.length pwm_values = 8%nat ->
  firstn 20 (frame_of pwm_values)
  = (frame_header ++ flat_map Py.le_uint16 (map clamp_pwm pwm_values))
    ++ [CRC.crc8 (frame_header ++ flat_map Py.le_uint16 (map clamp_pwm pwm_values))].
Proof.
  intros Hlen.
  do 9 (destruct pwm_values as [|? pwm_values]; try discriminate Hlen).
  reflexivity.
Qed.

(** X1. The CRC of a message followed by its own CRC is zero, so a receiver
    that runs [crc8] over the first twenty octets of a frame built by
    [serial_send] (header, payload and CRC octet) finds 0. *)
Theorem crc8_residue_zero :
  (forall data : list Z, CRC.crc8 (data ++ [CRC.crc8 data]) = 0) /\
  (forall pwm_values : list Z,
     List.length pwm_values = 8%nat ->
     CRC.crc8 (firstn 20 (frame_of pwm_values)) = 0).
Proof.
  split.
  - exact crc8_self_check.
  - intros v Hlen. rewrite (frame_of_first_twenty v Hlen). apply crc8_self_check.
Qed.

Lemma crc8_residue_zero_witness :
  CRC.crc8 (firstn 20 (frame_of (repeat 1500 8))) = 0.
Proof.
  apply (proj2 crc8_residue_zero (repeat 1500 8)). reflexivity.
Defined.

(** X2. Replacing one octet of a message by a different octet changes its
    CRC: any corruption confined to a single octet of header and payload is
    seen by a receiver that recomputes [crc8]. *)
Theorem crc8_detects_one_octet (pre post : list Z) (b b' : Z) :
  Forall CRC.is_byte pre ->
  Forall CRC.is_byte post ->
  CRC.is_byte b ->
  CRC.is_byte b' ->
  b <> b' ->
  CRC.crc8 (pre ++ b :: post) <> CRC.crc8 (pre ++ b' :: post).
Proof.
  intros Hpre Hpost Hb Hb' Hne Heq.
  unfold CRC.crc8 in Heq. rewrite !fold_left_app in Heq. cbn [fold_left] in Heq.
  fold (CRC.crc8 pre) in Heq.
  pose proof (CRCFacts.crc8_octet pre) as Hc.
  apply CRCDetect.fold_crc8_byte_injective in Heq;
    try assumption; try now apply CRCDetect.crc8_byte_octet.
  unfold CRC.crc8_byte in Heq.
  apply CRCDetect.shifts_injective in Heq; try now apply CRCFacts.lxor_octet.
  apply CRCDetect.lxor_cancel_l in Heq. contradiction.
Qed.

Lemma crc8_detects_one_octet_witness :
  CRC.crc8 ([0xAA; 0x00] ++ 0x00 :: [0xDC; 0x05])
  <> CRC.crc8 ([0xAA; 0x00] ++ 0x01 :: [0xDC; 0x05]).
Proof.
  apply (crc8_detects_one_octet [0xAA; 0x00] [0xDC; 0x05] 0x00 0x01);
    first [ discriminate | repeat constructor; unfold CRC.is_byte; lia ].
Defined.

(** ** The end of the time axis *)

Lemma Qltb_true (x y : Q) : Py.Qltb x y = true -> (x < y)%Q.
Proof.
  unfold Py.Qltb. intros H. apply negb_true_iff in H.
  apply Qnot_le_lt. intros Hle. apply Qle_bool_iff in Hle. congruence.
Qed.

Lemma Qltb_false (x y : Q) : Py.Qltb x y = false -> (y <= x)%Q.
Proof.
  unfold Py.Qltb. intros H. apply negb_false_iff in H. now apply Qle_bool_iff.
Qed.

(** [max] returns an element of a non-empty tuple that no element exceeds. *)
Lemma py_max_greatest (t : Q) (rest : list Q) :
  In (Py.max (t :: rest)) (t :: rest) /\
  forall x, In x (t :: rest) -> (x <= Py.max (t :: rest))%Q.
Proof.
  unfold Py.max. revert t. induction rest as [|r rest IH]; intros t.
  - simpl. split; [auto|]. intros x [<-|[]]. apply Qle_refl.
  - cbn [fold_left]. destruct (Py.Qltb t r) eqn:E.
    + destruct (IH r) as [Hin Hle]. split.
      * destruct Hin as [<-|Hin]; [right; left; reflexivity | right; right; exact Hin].
      * intros x [<-|[<-|Hx]].
        -- apply Qle_trans with r; [apply Qlt_le_weak, Qltb_true, E|].
           apply Hle. now left.
        -- apply Hle. now left.
        -- apply Hle. now right.
    + destruct (IH t) as [Hin Hle]. split.
      * destruct Hin as [<-|Hin]; [left; reflexivity | right; right; exact Hin].
      * intros x [<-|[<-|Hx]].
        -- apply Hle. now left.
        -- apply Qle_trans with t; [apply Qltb_false, E|]. apply Hle. now left.
        -- apply Hle. now right.
Qed.

Lemma max_time_step_facts (m : Q) (p : list waypoint) :
  (m <= max_time_step m p)%Q /\
  (forall t v, In (t, v) p -> (t <= max_time_step m p)%Q) /\
  (max_time_step m p = m \/ exists v, In (max_time_step m p, v) p).
Proof.
  destruct p as [|w p]; [simpl; split; [apply Qle_refl | split; [intros ? ? []|now left]]|].
  unfold max_time_step.
  destruct (py_max_greatest (fst w) (map fst p)) as [Hin Hle].
  change (fst w :: map fst p) with (map fst (w :: p)) in Hin, Hle.
  set (a := Py.max (map fst (w :: p))) in *.
  assert (Hmem : forall t v, In (t, v) (w :: p) -> (t <= a)%Q).
  { intros t v Htv. apply Hle. apply in_map_iff. exists (t, v). auto. }
  apply in_map_iff in Hin as [[t v] [Ht Hin]]. cbn [fst] in Ht.
  destruct (Py.Qltb m a) eqn:E.
  - split; [apply Qlt_le_weak, Qltb_true, E|]. split; [exact Hmem|].
    right. exists v. now rewrite <- Ht.
  - split; [apply Qle_refl|]. split; [|now left].
    intros t' v' H'. apply Qle_trans with a; [now apply (Hmem t' v')|].
    now apply Qltb_false.
Qed.

Lemma fold_max_time_step_facts (chans : list (list waypoint)) (m : Q) :
  let M := fold_left max_time_step chans m in
  (m <= M)%Q /\
  (forall p t v, In p chans -> In (t, v) p -> (t <= M)%Q) /\
  (M = m \/ exists p v, In p chans /\ In (M, v) p).
Proof.
  revert m. induction chans as [|p chans IH]; intros m; cbn [fold_left].
  - split; [apply Qle_refl|]. split; [intros ? ? ? []|now left].
  - destruct (IH (max_time_step m p)) as (Hle & Hall & Hin).
    destruct (max_time_step_facts m p) as (Hle1 & Hall1 & Hin1).
    split; [eapply Qle_trans; eauto|]. split.
    + intros q t v [<-|Hq] Htv.
      * eapply Qle_trans; [eapply Hall1; eauto | exact Hle].
      * eapply Hall; eauto.
    + destruct Hin as [Hin | (q & v & Hq & Hv)].
      * destruct Hin1 as [Hm | (v & Hv)].
        -- left. now rewrite Hin.
        -- right. exists p, v. split; [now left|]. now rewrite Hin.
      * right. exists q, v. split; [now right | exact Hv].
Qed.

(** One pass of the loop of [compute_max_time] on channel [i]. *)
Lemma compute_max_time_pass (s : ThrusterGUI) (m : Q) (i : nat) (p : list waypoint) :
  nth_error (points s) i = Some p ->
  (pts <- gets points ;;
   p <- lift (getitem pts i) ;;
   match p with
   | [] => ret tt
   | _ =>
       let a := Py.max (map fst p) in
       m <- gets max_time ;;
       if Py.Qltb m a then modify (set_max_time a) else ret tt
   end) (set_max_time m s)
  = (Ok tt, set_max_time (max_time_step m p) s).
Proof.
  intros Hp. unfold bind, gets, lift, getitem, modify, ret. attrs. rewrite Hp.
  destruct p as [|w p]; [reflexivity|].
  unfold max_time_step. attrs.
  destruct (Py.Qltb m (Py.max (map fst (w :: p)))); reflexivity.
Qed.

Lemma compute_max_time_fold (s : ThrusterGUI) :
  List.length (points s) = 8%nat ->
  compute_max_time s
  = (Ok tt, set_max_time (fold_left max_time_step (points s) 0%Q) s).
Proof.
  intros Hlen.
  destruct (points s) as [|p0 [|p1 [|p2 [|p3 [|p4 [|p5 [|p6 [|p7 [|? ?]]]]]]]]] eqn:Hp;
    try discriminate Hlen.
  unfold compute_max_time, bind at 1, modify.
  unfold THRUSTER_COUNT. cbn [seq for_each].
  do 8 (unfold bind at 1;
        erewrite compute_max_time_pass by (rewrite Hp; reflexivity)).
  reflexivity.
Qed.

(** X3. With its eight channels in place, [compute_max_time] never raises
    and assigns [max_time] only; the value it leaves is not negative, is at
    least every waypoint time of every channel, and is either 0 or the time
    of one of the waypoints. *)
Theorem compute_max_time_is_maximum (s : ThrusterGUI) :
  List.length (points s) = 8%nat ->
  exists m : Q,
    compute_max_time s = (Ok tt, set_max_time m s) /\
    (0 <= m)%Q /\
    (forall p t v, In p (points s) -> In (t, v) p -> (t <= m)%Q) /\
    (m = 0%Q \/ exists p v, In p (points s) /\ In (m, v) p).
Proof.
  intros Hlen. exists (fold_left max_time_step (points s) 0%Q).
  split; [now apply compute_max_time_fold|].
  apply (fold_max_time_step_facts (points s) 0%Q).
Qed.

Lemma compute_max_time_is_maximum_witness :
  exists m : Q,
    compute_max_time Sample.fractional_end
    = (Ok tt, set_max_time m Sample.fractional_end) /\
    (0 <= m)%Q /\
    (forall p t v, In p (points Sample.fractional_end) -> In (t, v) p -> (t <= m)%Q) /\
    (m = 0%Q \/ exists p v, In p (points Sample.fractional_end) /\ In (m, v) p).
Proof.
  apply (compute_max_time_is_maximum Sample.fractional_end). reflexivity.
Defined.

(** ** The sampling grid *)

Lemma py_int_nonneg (x : Q) : (0 <= x)%Q -> 0 <= Py.int x.
Proof.
  intros H. rewrite (int_is_floor x H).
  change 0 with (Qfloor 0). now apply Qfloor_resp_le.
Qed.

Lemma step_bound_positive (s : ThrusterGUI) :
  (0 <= max_time s)%Q -> 0 <= output_frequency s -> 1 <= step_bound s.
Proof.
  intros Hm Hf. unfold step_bound.
  assert (0 <= Py.int (max_time s * inject_Z (output_frequency s))); [|lia].
  apply py_int_nonneg. apply Qmult_le_0_compat; [exact Hm|].
  unfold Qle. cbn. lia.
Qed.

(** The grid is built without error when the end time and the frequency
    are not negative. *)
Lemma sample_times_runs (s : ThrusterGUI) :
  (0 <= max_time s)%Q ->
  0 <= output_frequency s ->
  exists ts : list Q,
    sample_times s = (Ok ts, s) /\
    Z.of_nat (List.length ts) = step_bound s /\
    ts = if step_bound s =? 1 then [0%Q]
         else map (fun i : nat =>
                     Qred (0 + inject_Z (Z.of_nat i)
                               * ((inject_Z (Py.round (max_time s)) - 0)
                                  / inject_Z (step_bound s - 1))))
                  (seq 0 (Z.to_nat (step_bound s))).
Proof.
  intros Hm Hf. pose proof (step_bound_positive s Hm Hf) as Hb.
  unfold sample_times, bind, gets, lift, Py.linspace.
  destruct (step_bound s <? 0) eqn:Hneg; [apply Z.ltb_lt in Hneg; clear - Hneg Hb; lia|].
  destruct (step_bound s =? 1) eqn:Hone.
  - apply Z.eqb_eq in Hone. exists [0%Q]. rewrite Hone. repeat split.
  - eexists. split; [reflexivity|]. split; [|reflexivity].
    rewrite length_map, length_seq. clear - Hb. lia.
Qed.

(** X4. With a non-negative end time and frequency, the sampling grid
    ([np.linspace(0, round(max_time), int(max_time * frequency) + 1)]) is
    built without error; it has exactly as many times as the bound of the
    tick handler's test, starts at 0, and, when it has two times or more,
    ends at [round(max_time)]. *)
Theorem sample_times_grid (s : ThrusterGUI) :
  (0 <= max_time s)%Q ->
  0 <= output_frequency s ->
  exists ts : list Q,
    sample_times s = (Ok ts, s) /\
    Z.of_nat (List.length ts) = step_bound s /\
    nth 0 ts 1%Q = 0%Q /\
    (2 <= step_bound s ->
     (nth (List.length ts - 1) ts 0 == inject_Z (Py.round (max_time s)))%Q).
Proof.
  intros Hm Hf. pose proof (step_bound_positive s Hm Hf) as Hb.
  destruct (sample_times_runs s Hm Hf) as (ts & Hrun & Hlen & Hts).
  exists ts. split; [exact Hrun|]. split; [exact Hlen|].
  destruct (step_bound s =? 1) eqn:Hone.
  - subst ts. split; [reflexivity|]. apply Z.eqb_eq in Hone. clear - Hone. lia.
  - apply Z.eqb_neq in Hone.
    set (stop := inject_Z (Py.round (max_time s))) in *.
    set (step := ((stop - 0) / inject_Z (step_bound s - 1))%Q) in *.
    set (g := fun i : nat => Qred (0 + inject_Z (Z.of_nat i) * step)) in *.
    subst ts. rewrite length_map, length_seq.
    assert (Hpos : (0 < Z.to_nat (step_bound s))%nat) by (clear - Hb; lia).
    split.
    + destruct (Z.to_nat (step_bound s)) as [|n]; [lia|].
      cbn [seq map nth]. unfold g.
      transitivity (Qred 0); [|reflexivity]. apply Qred_complete.
      cbn [Z.of_nat]. ring.
    + intros _.
      rewrite (nth_indep _ 0%Q (g 0%nat)) by (rewrite length_map, length_seq; lia).
      rewrite map_nth, seq_nth by lia. unfold g.
      rewrite Qred_correct. unfold step.
      assert (E : Z.of_nat (0 + (Z.to_nat (step_bound s) - 1)) = step_bound s - 1)
        by (clear - Hb; lia).
      rewrite E.
      field. intros H0.
      unfold Qeq in H0. cbn in H0. clear - H0 Hone. lia.
Qed.

Lemma sample_times_grid_witness :
  exists ts : list Q,
    sample_times Sample.just_started = (Ok ts, Sample.just_started) /\
    Z.of_nat (List.length ts) = step_bound Sample.just_started /\
    nth 0 ts 1%Q = 0%Q /\
    (2 <= step_bound Sample.just_started ->
     (nth (List.length ts - 1) ts 0
      == inject_Z (Py.round (max_time Sample.just_started)))%Q).
Proof.
  apply (sample_times_grid Sample.just_started).
  - vm_compute. discriminate.
  - vm_compute. discriminate.
Defined.

(** X5. When the end time is a whole number of seconds T >= 1 and the
    frequency f is positive, the grid has T * f + 1 times and the i-th is
    i / f: the step is the output period. *)
Theorem sample_times_whole_seconds (s : ThrusterGUI) (T : Z) :
  max_time s = inject_Z T ->
  1 <= T ->
  1 <= output_frequency s ->
  sample_times s
  = (Ok (map (fun i : nat => Qred (inject_Z (Z.of_nat i) / inject_Z (output_frequency s)))
             (seq 0 (Z.to_nat (T * output_frequency s + 1)))),
     s).
Proof.
  intros HT H1 Hf.
  assert (Hb : step_bound s = T * output_frequency s + 1).
  { unfold step_bound. rewrite HT. unfold Py.int. cbn [Qmult inject_Z Qnum Qden Pos.mul].
    rewrite Z.quot_1_r. reflexivity. }
  assert (Hr : Py.round (max_time s) = T).
  { rewrite HT. unfold Py.round. rewrite Qfloor_Z.
    replace (inject_Z T - inject_Z T ?= 1 # 2)%Q with Lt; [reflexivity|].
    symmetry. apply Qlt_alt.
    setoid_replace (inject_Z T - inject_Z T)%Q with 0%Q by ring. reflexivity. }
  unfold sample_times, bind, gets, lift, Py.linspace. rewrite Hb, Hr.
  assert (Hprod : 1 <= T * output_frequency s) by nia.
  destruct (T * output_frequency s + 1 <? 0) eqn:Hneg; [apply Z.ltb_lt in Hneg; lia|].
  destruct (T * output_frequency s + 1 =? 1) eqn:Hone; [apply Z.eqb_eq in Hone; lia|].
  f_equal. f_equal. apply map_ext. intros i. apply Qred_complete.
  replace (T * output_frequency s + 1 - 1) with (T * output_frequency s) by lia.
  rewrite inject_Z_mult. field. split.
  - intros H0. unfold Qeq in H0. cbn in H0. clear - H0 Hf. lia.
  - intros H0. unfold Qeq in H0. cbn in H0. clear - H0 H1. lia.
Qed.

Lemma sample_times_whole_seconds_witness :
  sample_times Sample.mid_run_20hz
  = (Ok (map (fun i : nat => Qred (inject_Z (Z.of_nat i) / inject_Z 20))
             (seq 0 (Z.to_nat (1 * 20 + 1)))),
     Sample.mid_run_20hz).
Proof.
  apply (sample_times_whole_seconds Sample.mid_run_20hz 1).
  - reflexivity.
  - lia.
  - vm_compute. discriminate.
Defined.

(** ** A rebuild that succeeds *)

Lemma clip_clipped (y : npfloat) : clipped (Py.clip 1100 1900 y).
Proof.
  destruct y as [q| | |]; cbn [Py.clip clipped];
    [ | split; discriminate | split; discriminate | exact I ].
  destruct (Py.Qltb q 1100) eqn:Elo.
  - split; discriminate.
  - apply Qltb_false in Elo. destruct (Py.Qltb 1900 q) eqn:Ehi.
    + split; discriminate.
    + apply Qltb_false in Ehi. split; assumption.
Qed.

Lemma setitem_in_range {A} (l : list A) (i : nat) (v : A) :
  (i < List.length l)%nat -> exists l', setitem l i v = Ok l'.
Proof.
  revert i. induction l as [|x l IH]; intros i Hi; [simpl in Hi; lia|].
  destruct i as [|i]; cbn [setitem]; [eauto|].
  destruct (IH i) as [l' ->]; [simpl in Hi; lia|]. eauto.
Qed.

Lemma setitem_result {A} (l l' : list A) (i : nat) (v : A) :
  setitem l i v = Ok l' ->
  List.length l' = List.length l /\
  nth_error l' i = Some v /\
  forall j, j <> i -> nth_error l' j = nth_error l j.
Proof.
  revert i l'. induction l as [|x l IH]; intros i l' H; [discriminate|].
  destruct i as [|i]; cbn [setitem] in H.
  - inversion H. subst. repeat split. intros [|j] Hj; [congruence | reflexivity].
  - destruct (setitem l i v) as [r|e] eqn:E; [|discriminate].
    inversion H. subst. destruct (IH i r E) as (Hlen & Hi & Hj).
    repeat split; cbn [List.length nth_error]; [congruence | exact Hi |].
    intros [|j] Hne; [reflexivity|]. apply Hj. congruence.
Qed.

Lemma sample_times_ignores_cache (c : list (list Q * list npfloat)) (s : ThrusterGUI)
    (ts : list Q) :
  sample_times s = (Ok ts, s) ->
  sample_times (set_cached_pwms c s) = (Ok ts, set_cached_pwms c s).
Proof.
  unfold sample_times, bind, gets, lift, step_bound. attrs.
  intros H. inversion H as [H1]. now rewrite H1.
Qed.

Section RebuildSuccess.

Variable interp1d : list Q -> list Z -> string -> result (Q -> npfloat).
Variable BarycentricInterpolator : list Q -> list Z -> result (Q -> npfloat).

(** A cached curve on the grid [ts]: as many samples as times, each clipped. *)
Let on_grid (ts : list Q) (c : list (list Q * list npfloat)) (i : nat) : Prop :=
  exists y, nth_error c i = Some (ts, y) /\
            List.length y = List.length ts /\ Forall clipped y.

Lemma compute_pwms_loop_succeeds (s1 : ThrusterGUI) (ts : list Q) :
  sample_times s1 = (Ok ts, s1) ->
  (forall i, (i < 8)%nat ->
     exists p f, nth_error (points s1) i = Some p /\ p <> [] /\
                 select_curve interp1d BarycentricInterpolator
                   (selected_interpolation s1) (map fst p) (map snd p)
                 = Ok (Some f)) ->
  forall (chans : list nat) (c : list (list Q * list npfloat)),
    List.length c = 8%nat ->
    (forall i, In i chans -> (i < 8)%nat) ->
    exists c',
      for_each chans (compute_pwms_channel interp1d BarycentricInterpolator)
        (set_cached_pwms c s1)
      = (Ok tt, set_cached_pwms c' s1) /\
      List.length c' = 8%nat /\
      (forall i, In i chans -> on_grid ts c' i) /\
      (forall i, on_grid ts c i -> on_grid ts c' i).
Proof.
  intros Hts Hbuild chans.
  induction chans as [|i chans IH]; intros c Hlen Hin.
  - exists c. cbn [for_each]. repeat split; auto. intros i [].
  - destruct (Hbuild i (Hin i (or_introl eq_refl))) as (p & f & Hp & Hne & Hsel).
    set (curve := (ts, map (Py.clip 1100 1900) (map f ts))).
    destruct (setitem_in_range c i curve) as [c1 Hset];
      [rewrite Hlen; apply Hin; now left|].
    destruct (setitem_result c c1 i curve Hset) as (Hlen1 & Hi1 & Hother).
    assert (Hstep : compute_pwms_channel interp1d BarycentricInterpolator i
                      (set_cached_pwms c s1)
                    = (Ok tt, set_cached_pwms c1 s1)).
    { apply (compute_pwms_channel_built interp1d BarycentricInterpolator
               i (set_cached_pwms c s1) p f ts c1); attrs; auto.
      now apply sample_times_ignores_cache. }
    assert (Hgood1 : on_grid ts c1 i).
    { exists (map (Py.clip 1100 1900) (map f ts)). split; [exact Hi1|].
      split; [now rewrite !length_map|].
      apply Forall_forall. intros y Hy. apply in_map_iff in Hy as [x [<- _]].
      apply clip_clipped. }
    assert (Hkeep1 : forall j, on_grid ts c j -> on_grid ts c1 j).
    { intros j Hj. destruct (Nat.eq_dec j i) as [->|Hne']; [exact Hgood1|].
      destruct Hj as (y & Hy & Hrest). exists y. split; [|exact Hrest].
      now rewrite Hother. }
    destruct (IH c1) as (c' & Hrun & Hlen' & Hall & Hkeep);
      [congruence | intros j Hj; apply Hin; now right |].
    exists c'. cbn [for_each]. unfold bind. rewrite Hstep.
    split; [exact Hrun|]. split; [exact Hlen'|]. split.
    + intros j [<-|Hj]; [apply Hkeep, Hgood1 | now apply Hall].
    + intros j Hj. apply Hkeep, Hkeep1, Hj.
Qed.

(** X6. When every channel has a waypoint, scipy builds a curve for each,
    and the frequency is not negative, [compute_pwms] succeeds; it assigns
    [max_time] and the cache only, and every channel's cached curve is on
    the same grid, with as many samples as the bound of the tick handler's
    test, each sample clipped to [1100, 1900] (or nan). *)
Theorem compute_pwms_rebuilds (s : ThrusterGUI) :
  List.length (points s) = 8%nat ->
  List.length (cached_pwms s) = 8%nat ->
  0 <= output_frequency s ->
  (forall p, In p (points s) ->
     p <> [] /\
     exists f, select_curve interp1d BarycentricInterpolator
                 (selected_interpolation s) (map fst p) (map snd p)
               = Ok (Some f)) ->
  exists (m : Q) (c : list (list Q * list npfloat)) (ts : list Q),
    compute_max_time s = (Ok tt, set_max_time m s) /\
    compute_pwms interp1d BarycentricInterpolator s
    = (Ok tt, set_cached_pwms c (set_max_time m s)) /\
    List.length c = 8%nat /\
    Z.of_nat (List.length ts) = step_bound (set_max_time m s) /\
    forall i, (i < 8)%nat ->
      exists y, nth_error c i = Some (ts, y) /\
                List.length y = List.length ts /\ Forall clipped y.
Proof.
  intros Hpts Hcache Hfreq Hbuild.
  pose proof (compute_max_time_fold s Hpts) as Hmax.
  destruct (fold_max_time_step_facts (points s) 0%Q) as (Hm0 & _ & _).
  set (m := fold_left max_time_step (points s) 0%Q) in *.
  set (s1 := set_max_time m s).
  destruct (sample_times_runs s1) as (ts & Hts & Hlen & _); [exact Hm0 | exact Hfreq |].
  assert (Hbuild1 : forall i, (i < 8)%nat ->
            exists p f, nth_error (points s1) i = Some p /\ p <> [] /\
                        select_curve interp1d BarycentricInterpolator
                          (selected_interpolation s1) (map fst p) (map snd p)
                        = Ok (Some f)).
  { intros i Hi. unfold s1. attrs.
    destruct (nth_error (points s) i) as [p|] eqn:Hp;
      [|apply nth_error_None in Hp; lia].
    destruct (Hbuild p (nth_error_In _ _ Hp)) as (Hne & f & Hsel).
    exists p, f. auto. }
  destruct (compute_pwms_loop_succeeds s1 ts Hts Hbuild1 (seq 0 8) (cached_pwms s))
    as (c & Hrun & Hlenc & Hall & _);
    [exact Hcache | intros i Hi; apply in_seq in Hi; lia |].
  exists m, c, ts. split; [exact Hmax|]. split.
  - unfold compute_pwms, bind. rewrite Hmax. exact Hrun.
  - split; [exact Hlenc|]. split; [exact Hlen|].
    intros i Hi. apply Hall. apply in_seq. lia.
Qed.

End RebuildSuccess.

Lemma compute_pwms_rebuilds_witness :
  exists (m : Q) (c : list (list Q * list npfloat)) (ts : list Q),
    compute_max_time Sample.fractional_end
    = (Ok tt, set_max_time m Sample.fractional_end) /\
    compute_pwms Sample.interp1d Sample.BarycentricInterpolator Sample.fractional_end
    = (Ok tt, set_cached_pwms c (set_max_time m Sample.fractional_end)) /\
    List.length c = 8%nat /\
    Z.of_nat (List.length ts) = step_bound (set_max_time m Sample.fractional_end) /\
    forall i, (i < 8)%nat ->
      exists y, nth_error c i = Some (ts, y) /\
                List.length y = List.length ts /\ Forall clipped y.
Proof.
  apply (compute_pwms_rebuilds Sample.interp1d Sample.BarycentricInterpolator
           Sample.fractional_end).
  - reflexivity.
  - reflexivity.
  - vm_compute. discriminate.
  - intros p Hp. cbn in Hp.
    repeat (destruct Hp as [<-|Hp]; [split; [discriminate | eexists; reflexivity]|]).
    contradiction.
Defined.

(** ** What a rebuild may touch *)

Lemma compute_max_time_touches (s s' : ThrusterGUI) (r : result unit) :
  compute_max_time s = (r, s') -> exists m, s' = set_max_time m s.
Proof.
  unfold compute_max_time, bind at 1, modify. intros Hrun.
  eapply (for_each_invariant (fun st => exists m, st = set_max_time m s));
    [|exact Hrun|exists 0%Q; reflexivity].
  clear. intros i st r st'. unfold bind, gets, lift, modify, ret.
  intros H [m ->].
  destruct (getitem (points (set_max_time m s)) i) as [[|w p]|e];
    try (inversion H; subst; eauto; fail).
  destruct (Py.Qltb _ _); inversion H; subst; eauto.
  eexists. reflexivity.
Qed.

Section RebuildFrame.

Variable interp1d : list Q -> list Z -> string -> result (Q -> npfloat).
Variable BarycentricInterpolator : list Q -> list Z -> result (Q -> npfloat).

Lemma compute_pwms_channel_touches (i : nat) (s s' : ThrusterGUI) (r : result unit) :
  compute_pwms_channel interp1d BarycentricInterpolator i s = (r, s') ->
  s' = s \/ exists c, s' = set_cached_pwms c s.
Proof.
  unfold compute_pwms_channel, sample_times, bind, gets, lift, modify, raise.
  repeat match goal with
         | |- context [match ?x with _ => _ end] => destruct x
         end; intros H; inversion H; eauto.
Qed.

(** Whether it succeeds or raises, [compute_pwms] assigns nothing but
    [max_time] and [cached_pwms]. *)
Lemma compute_pwms_frame (s s' : ThrusterGUI) (r : result unit) :
  compute_pwms interp1d BarycentricInterpolator s = (r, s') ->
  exists (m : Q) (c : list (list Q * list npfloat)),
    s' = set_cached_pwms c (set_max_time m s).
Proof.
  unfold compute_pwms, bind at 1. intros Hrun.
  destruct (compute_max_time s) as [[[]|e] s1] eqn:Hmax.
  - apply compute_max_time_touches in Hmax as [m ->].
    eapply (for_each_invariant
              (fun st => exists c, st = set_cached_pwms c (set_max_time m s)))
      in Hrun.
    + destruct Hrun as [c ->]. eauto.
    + intros i st r' st' Hi [c ->].
      apply compute_pwms_channel_touches in Hi as [-> | [c' ->]]; eexists; reflexivity.
    + exists (cached_pwms s). destruct s. reflexivity.
  - inversion Hrun. subst.
    apply compute_max_time_touches in Hmax as [m ->].
    exists m, (cached_pwms s). destruct s. reflexivity.
Qed.

(** X7. Whether it succeeds or raises, [compute_pwms] leaves the waypoints,
    the mode, the frequency, the link, the timer, the cursor and the wire as
    they were: a failed rebuild can leave a partly renewed cache and a new
    [max_time], nothing else. *)
Theorem compute_pwms_touches_only (s s' : ThrusterGUI) (r : result unit) :
  compute_pwms interp1d BarycentricInterpolator s = (r, s') ->
  points s' = points s /\
  selected_interpolation s' = selected_interpolation s /\
  output_frequency s' = output_frequency s /\
  serial_status s' = serial_status s /\
  serial_conn s' = serial_conn s /\
  timer_active s' = timer_active s /\
  timer_interval s' = timer_interval s /\
  com_step s' = com_step s /\
  wire s' = wire s /\
  files s' = files s.
Proof.
  intros Hrun. apply compute_pwms_frame in Hrun as (m & c & ->).
  attrs. repeat split.
Qed.

End RebuildFrame.

Lemma compute_pwms_touches_only_witness :
  let run := compute_pwms Sample.interp1d Sample.BarycentricInterpolator
               Sample.first_channel_only in
  points (snd run) = points Sample.first_channel_only /\
  selected_interpolation (snd run) = selected_interpolation Sample.first_channel_only /\
  output_frequency (snd run) = output_frequency Sample.first_channel_only /\
  serial_status (snd run) = serial_status Sample.first_channel_only /\
  serial_conn (snd run) = serial_conn Sample.first_channel_only /\
  timer_active (snd run) = timer_active Sample.first_channel_only /\
  timer_interval (snd run) = timer_interval Sample.first_channel_only /\
  com_step (snd run) = com_step Sample.first_channel_only /\
  wire (snd run) = wire Sample.first_channel_only /\
  files (snd run) = files Sample.first_channel_only.
Proof.
  intros run.
  apply (compute_pwms_touches_only Sample.interp1d Sample.BarycentricInterpolator
           Sample.first_channel_only (snd run) (fst run)).
  apply surjective_pairing.
Defined.

(** ** Starting a run *)

Lemma setup_serial_opens (s : ThrusterGUI) :
  serial_port s <> None ->
  port_openable s = true ->
  link_ok s ->
  setup_serial s = (Ok tt, set_serial_status 1 (set_serial_conn (Some true) s)).
Proof.
  intros Hport Hopen [Hstat Hconn].
  destruct s as [kind baud port freq cached tact tint conn status pts mt step
                 openable w fs].
  cbn in Hport, Hopen, Hstat, Hconn. subst openable.
  destruct port as [p|]; [|congruence].
  destruct Hstat as [-> | ->]; [reflexivity|].
  rewrite (Hconn eq_refl). reflexivity.
Qed.

(** Writes on an open port pile up on the wire in order. *)
Lemma for_each_conn_write (ds : list (list Z)) :
  forall s : ThrusterGUI,
    serial_conn s = Some true ->
    for_each ds conn_write s = (Ok tt, set_wire (wire s ++ ds) s).
Proof.
  induction ds as [|d ds IH]; intros s Hconn.
  - cbn [for_each]. rewrite app_nil_r. destruct s. reflexivity.
  - cbn [for_each]. unfold bind, conn_write at 1. rewrite Hconn.
    rewrite IH by exact Hconn. unfold set_wire. attrs.
    rewrite <- app_assoc. reflexivity.
Qed.

Lemma start_sequence_written (s : ThrusterGUI) :
  serial_conn s = Some true ->
  for_each start_sequence conn_write s
  = (Ok tt, set_wire (wire s ++ start_sequence) s).
Proof. apply for_each_conn_write. Qed.

Section StartFacts.

Variable interp1d : list Q -> list Z -> string -> result (Q -> npfloat).
Variable BarycentricInterpolator : list Q -> list Z -> result (Q -> npfloat).

(** X8. [serial_start] with a port that opens, by the outcome of the rebuild
    on the opened link.  If the rebuild raises, so does the start, and
    neither the start sequence nor the timer is touched.  If it succeeds,
    the seven octets FF 00 01 00 00 52 EE are written, one write each, the
    cursor is set to 0, and the timer is started with interval
    [1000 // frequency]; with frequency 0 that division raises after the
    start sequence is out and the timer is not started. *)
Theorem serial_start_outcome (s s1 : ThrusterGUI) (r : result unit) :
  serial_port s <> None ->
  port_openable s = true ->
  link_ok s ->
  compute_pwms interp1d BarycentricInterpolator
    (set_serial_status 1 (set_serial_conn (Some true) s)) = (r, s1) ->
  serial_start interp1d BarycentricInterpolator s
  = match r with
    | Raise e => (Raise e, s1)
    | Ok _ =>
        if output_frequency s =? 0
        then (Raise ZeroDivisionError,
              set_com_step 0 (set_wire (wire s ++ start_sequence) s1))
        else (Ok tt,
              set_timer true (1000 / output_frequency s)
                (set_com_step 0 (set_wire (wire s ++ start_sequence) s1)))
    end.
Proof.
  intros Hport Hopen Hlink Hrun.
  unfold serial_start, bind at 1. rewrite (setup_serial_opens s Hport Hopen Hlink).
  unfold bind at 1, gets. attrs. cbn [Z.eqb].
  unfold bind at 1, ret. unfold bind at 1. rewrite Hrun.
  destruct r as [[]|e]; [|reflexivity].
  apply compute_pwms_frame in Hrun as (m & c & ->).
  unfold bind at 1, gets. attrs. cbn [Z.eqb].
  unfold bind at 1. rewrite start_sequence_written by reflexivity.
  unfold bind, modify, gets, floordiv, timer_start, raise, ret. attrs.
  destruct (output_frequency s =? 0); reflexivity.
Qed.

End StartFacts.

Lemma serial_start_outcome_witness :
  let s1 :=
    set_cached_pwms
      (repeat ([0%Q; 2 # 3; 4 # 3; 2%Q], repeat (Fin 1500) 4) 8)
      (set_max_time (3 # 2)
         (set_serial_status 1 (set_serial_conn (Some true) Sample.fractional_end))) in
  serial_start Sample.interp1d Sample.BarycentricInterpolator Sample.fractional_end
  = (Ok tt,
     set_timer true 500
       (set_com_step 0
          (set_wire (wire Sample.fractional_end ++ start_sequence) s1))).
Proof.
  intros s1.
  refine (serial_start_outcome Sample.interp1d Sample.BarycentricInterpolator
            Sample.fractional_end s1 (Ok tt) _ _ _ _).
  - discriminate.
  - reflexivity.
  - split; [left; reflexivity | intros H; discriminate H].
  - vm_compute. reflexivity.
Defined.

(** ** A run left to itself *)

Lemma after_frames_zero (s : ThrusterGUI) :
  com_step s = 0%nat -> after_frames s 0 = s.
Proof.
  intros H. unfold after_frames. cbn [seq map]. rewrite app_nil_r.
  destruct s. cbn in H. subst. reflexivity.
Qed.

Lemma after_frames_next (s : ThrusterGUI) (k : nat) :
  set_com_step (S k)
    (set_wire (wire (after_frames s k) ++ [frame_of (vector_at (cached_pwms s) k)])
       (after_frames s k))
  = after_frames s (S k).
Proof.
  unfold after_frames. attrs. unfold set_com_step, set_wire. attrs.
  rewrite seq_S, map_app, <- app_assoc. reflexivity.
Qed.

(** A tick at a step where every channel has a sample. *)
Lemma tick_after_frames (s : ThrusterGUI) (k : nat) :
  timer_active s = true ->
  serial_status s = 1 ->
  serial_conn s = Some true ->
  Z.of_nat k <= step_bound s ->
  List.length (vector_at (cached_pwms s) k) = 8%nat ->
  timer_event (after_frames s k) = (Ok tt, after_frames s (S k)).
Proof.
  intros Hact Hstat Hconn Hbound Hlen.
  unfold timer_event. replace (timer_active (after_frames s k)) with true
    by (unfold after_frames; attrs; now rewrite Hact).
  rewrite send_pwms_within_bound by (unfold after_frames, step_bound; attrs; exact Hbound).
  unfold bind at 1, get_pwms, gets.
  replace (com_step (after_frames s k)) with k by (unfold after_frames; reflexivity).
  replace (cached_pwms (after_frames s k)) with (cached_pwms s)
    by (unfold after_frames; reflexivity).
  fold (vector_at (cached_pwms s) k).
  unfold bind. rewrite (serial_send_open _ _ Hlen)
    by (unfold after_frames; attrs; assumption).
  unfold modify.
  replace (com_step (set_wire _ (after_frames s k))) with k
    by (unfold after_frames; reflexivity).
  now rewrite after_frames_next.
Qed.

(** A tick at a step where some channel has no sample. *)
Lemma tick_stalls (s : ThrusterGUI) (k : nat) :
  timer_active s = true ->
  Z.of_nat k <= step_bound s ->
  List.length (vector_at (cached_pwms s) k) <> 8%nat ->
  timer_event (after_frames s k) = (Raise ValueError, after_frames s k).
Proof.
  intros Hact Hbound Hlen.
  unfold timer_event. replace (timer_active (after_frames s k)) with true
    by (unfold after_frames; attrs; now rewrite Hact).
  rewrite send_pwms_within_bound by (unfold after_frames, step_bound; attrs; exact Hbound).
  unfold bind at 1, get_pwms, gets.
  replace (com_step (after_frames s k)) with k by (unfold after_frames; reflexivity).
  replace (cached_pwms (after_frames s k)) with (cached_pwms s)
    by (unfold after_frames; reflexivity).
  fold (vector_at (cached_pwms s) k).
  unfold bind. now rewrite serial_send_wrong_count.
Qed.

Lemma run_from_frames (s : ThrusterGUI) (len : nat) :
  timer_active s = true ->
  serial_status s = 1 ->
  serial_conn s = Some true ->
  Z.of_nat len <= step_bound s ->
  (forall k, (k < len)%nat -> List.length (vector_at (cached_pwms s) k) = 8%nat) ->
  List.length (vector_at (cached_pwms s) len) <> 8%nat ->
  forall n k, (k <= len)%nat ->
    run_ticks n (after_frames s k) = after_frames s (Nat.min (k + n) len).
Proof.
  intros Hact Hstat Hconn Hbound Hall Hend n.
  induction n as [|n IH]; intros k Hk; cbn [run_ticks].
  - f_equal. lia.
  - destruct (Nat.eq_dec k len) as [->|Hne].
    + rewrite (tick_stalls s len Hact Hbound Hend). cbn [snd].
      rewrite IH by lia. f_equal. lia.
    + rewrite (tick_after_frames s k Hact Hstat Hconn) by (try apply Hall; lia).
      cbn [snd]. rewrite IH by lia. f_equal. lia.
Qed.

(** C3.  The idle/stop sequence that [send_pwms] keeps for the
    end of a run is not reached by a run.  All eight channels hold
    (0, 1600) and (2.5, 1600) and the output frequency is 2 Hz.  [start()]
    caches six samples a channel; the step count of the sampling grid is
    floor(round(2.5) * 2) + 1 = 5, the bound of the tick handler is
    int(2.5 * 2) + 1 = 6.  The first six ticks send the six data frames and
    leave the cursor at 6, past the step count.  Every later tick finds
    6 <= 6, looks up step 6, gets a short vector and raises [ValueError] in
    [serial_send], leaving everything as it was: the timer is never
    stopped, the idle frame is never written, the port is never closed. *)
Theorem run_end_never_idles :
  serial_start Sample.interp1d Sample.BarycentricInterpolator Sample.raised_idle
  = (Ok tt, Sample.raised_run) /\
  Py.int (inject_Z (Py.round (max_time Sample.raised_run))
          * inject_Z (output_frequency Sample.raised_run)) + 1 = 5 /\
  step_bound Sample.raised_run = 6 /\
  forall n : nat,
    com_step (run_ticks n Sample.raised_run) = Nat.min n 6 /\
    wire (run_ticks n Sample.raised_run)
    = start_sequence ++ repeat (frame_of (repeat 1600 8)) (Nat.min n 6) /\
    ~ In (frame_of (repeat 1500 8)) (wire (run_ticks n Sample.raised_run)) /\
    timer_active (run_ticks n Sample.raised_run) = true /\
    serial_conn (run_ticks n Sample.raised_run) = Some true /\
    serial_status (run_ticks n Sample.raised_run) = 1 /\
    ((6 <= n)%nat ->
     5 < Z.of_nat (com_step (run_ticks n Sample.raised_run)) /\
     timer_event (run_ticks n Sample.raised_run)
     = (Raise ValueError, run_ticks n Sample.raised_run)).
Proof.
  split; [vm_compute; reflexivity|].
  split; [vm_compute; reflexivity|].
  split; [vm_compute; reflexivity|].
  intros n.
  assert (Hbound : Z.of_nat 6 <= step_bound Sample.raised_run)
    by (vm_compute; discriminate).
  assert (Hall : forall k, (k < 6)%nat ->
            List.length (vector_at (cached_pwms Sample.raised_run) k) = 8%nat).
  { intros k Hk. do 6 (destruct k as [|k]; [reflexivity|]). lia. }
  assert (Hend : List.length (vector_at (cached_pwms Sample.raised_run) 6) <> 8%nat)
    by (vm_compute; discriminate).
  assert (Hrun : run_ticks n Sample.raised_run
                 = after_frames Sample.raised_run (Nat.min n 6)).
  { rewrite <- (after_frames_zero Sample.raised_run eq_refl) at 1.
    rewrite (run_from_frames Sample.raised_run 6 eq_refl eq_refl eq_refl
               Hbound Hall Hend n 0) by lia.
    reflexivity. }
  assert (Hframes : forall k, (k <= 6)%nat ->
            map (fun j => frame_of (vector_at (cached_pwms Sample.raised_run) j))
              (seq 0 k)
            = repeat (frame_of (repeat 1600 8)) k).
  { intros k Hk. do 7 (destruct k as [|k]; [vm_compute; reflexivity|]). lia. }
  assert (Hwire : wire (run_ticks n Sample.raised_run)
                  = start_sequence ++ repeat (frame_of (repeat 1600 8)) (Nat.min n 6)).
  { rewrite Hrun. unfold after_frames. attrs.
    rewrite Hframes by lia. reflexivity. }
  split; [rewrite Hrun; reflexivity|].
  split; [exact Hwire|].
  split.
  { rewrite Hwire. intros Hin. apply in_app_or in Hin as [Hin | Hin].
    - vm_compute in Hin. intuition discriminate.
    - apply repeat_spec in Hin. vm_compute in Hin. discriminate Hin. }
  split; [rewrite Hrun; reflexivity|].
  split; [rewrite Hrun; reflexivity|].
  split; [rewrite Hrun; reflexivity|].
  intros Hn. rewrite Hrun, Nat.min_r by exact Hn. split.
  - unfold after_frames. attrs. lia.
  - exact (tick_stalls Sample.raised_run 6 eq_refl Hbound Hend).
Qed.

Lemma run_end_never_idles_witness :
  (6 <= 7)%nat /\
  5 < Z.of_nat (com_step (run_ticks 7 Sample.raised_run)) /\
  timer_event (run_ticks 7 Sample.raised_run)
  = (Raise ValueError, run_ticks 7 Sample.raised_run).
Proof.
  assert (H : (6 <= 7)%nat) by lia.
  split; [exact H|].
  destruct run_end_never_idles as (_ & _ & _ & K).
  destruct (K 7%nat) as (_ & _ & _ & _ & _ & _ & Hlate).
  exact (Hlate H).
Defined.

(** X9. A run started on a cache with [len] complete steps, and left alone,
    sends the [len] data frames in order, one a tick, and then stays where
    it is: every later tick finds step [len] within the bound, gets a short
    vector and raises in [serial_send].  The timer keeps running, the port
    stays open, and the idle frame is never sent. *)
Theorem undisturbed_run_stalls (s : ThrusterGUI) (len : nat) :
  timer_active s = true ->
  serial_status s = 1 ->
  serial_conn s = Some true ->
  com_step s = 0%nat ->
  Z.of_nat len <= step_bound s ->
  (forall k, (k < len)%nat -> List.length (vector_at (cached_pwms s) k) = 8%nat) ->
  List.length (vector_at (cached_pwms s) len) <> 8%nat ->
  forall n : nat,
    run_ticks n s = after_frames s (Nat.min n len) /\
    timer_active (run_ticks n s) = true /\
    serial_conn (run_ticks n s) = Some true /\
    (len <= n -> fst (timer_event (run_ticks n s)) = Raise ValueError)%nat.
Proof.
  intros Hact Hstat Hconn Hzero Hbound Hall Hend n.
  assert (Hrun : run_ticks n s = after_frames s (Nat.min n len)).
  { rewrite <- (after_frames_zero s Hzero) at 1.
    rewrite (run_from_frames s len Hact Hstat Hconn Hbound Hall Hend n 0) by lia.
    reflexivity. }
  rewrite Hrun. split; [reflexivity|].
  split; [unfold after_frames; attrs; exact Hact|].
  split; [unfold after_frames; attrs; exact Hconn|].
  intros Hn. rewrite Nat.min_r by exact Hn.
  now rewrite (tick_stalls s len Hact Hbound Hend).
Qed.

Lemma undisturbed_run_stalls_witness :
  run_ticks 5 Sample.just_started = after_frames Sample.just_started (Nat.min 5 2) /\
  timer_active (run_ticks 5 Sample.just_started) = true /\
  serial_conn (run_ticks 5 Sample.just_started) = Some true /\
  (2 <= 5 -> fst (timer_event (run_ticks 5 Sample.just_started)) = Raise ValueError)%nat.
Proof.
  apply (undisturbed_run_stalls Sample.just_started 2).
  - reflexivity.
  - reflexivity.
  - reflexivity.
  - reflexivity.
  - vm_compute. discriminate.
  - intros k Hk. destruct k as [|[|k]]; [reflexivity | reflexivity | lia].
  - vm_compute. discriminate.
Defined.

(** ** The Start/Stop and Idle buttons *)

Section ButtonFacts.

Variable interp1d : list Q -> list Z -> string -> result (Q -> npfloat).
Variable BarycentricInterpolator : list Q -> list Z -> result (Q -> npfloat).

(** X10. [serial_start_stop] on an open link stops at once, whatever the
    cursor: the timer is stopped, one idle frame is written, the port is
    closed, and no tick that fires afterwards changes anything. *)
Theorem start_stop_on_open_link_stops (s : ThrusterGUI) :
  serial_status s = 1 ->
  serial_conn s = Some true ->
  let stopped :=
    set_serial_status 0
      (set_serial_conn (Some false)
         (set_wire (wire s ++ [frame_of (repeat 1500 8)])
            (set_timer false (timer_interval s) s))) in
  serial_start_stop interp1d BarycentricInterpolator s = (Ok tt, stopped) /\
  forall n : nat, run_ticks n stopped = stopped.
Proof.
  intros Hstat Hconn stopped. split.
  - unfold serial_start_stop, bind, gets. rewrite Hstat. cbn [Z.eqb].
    now apply serial_send_idle_open.
  - intros n. now apply run_ticks_stopped.
Qed.

End ButtonFacts.

Lemma start_stop_on_open_link_stops_witness :
  serial_start_stop Sample.interp1d Sample.BarycentricInterpolator Sample.mid_run_20hz
  = (Ok tt,
     set_serial_status 0
       (set_serial_conn (Some false)
          (set_wire (wire Sample.mid_run_20hz ++ [frame_of (repeat 1500 8)])
             (set_timer false (timer_interval Sample.mid_run_20hz)
                Sample.mid_run_20hz)))).
Proof.
  apply (start_stop_on_open_link_stops Sample.interp1d Sample.BarycentricInterpolator
           Sample.mid_run_20hz); reflexivity.
Defined.

(** X11. The idle sequence on a closed link.  When the port opens, one idle
    frame is written and the port is closed again.  When no port is
    selected or the port does not open, the timer is stopped all the same,
    nothing is written and the call ends in [ConnectionError]. *)
Theorem idle_on_closed_link (s : ThrusterGUI) :
  serial_status s = 0 ->
  serial_send_idle s
  = match serial_port s with
    | Some _ =>
        if port_openable s
        then (Ok tt,
              set_serial_status 0
                (set_serial_conn (Some false)
                   (set_wire (wire s ++ [frame_of (repeat 1500 8)])
                      (set_timer false (timer_interval s) s))))
        else (Raise ConnectionError,
              set_timer false (timer_interval s) (set_serial_conn None s))
    | None =>
        (Raise ConnectionError,
         set_timer false (timer_interval s) (set_serial_conn (Some false) s))
    end.
Proof.
  intros Hstat.
  destruct s as [kind baud port freq cached tact tint conn status pts mt step
                 openable w fs].
  cbn in Hstat. subst status.
  destruct port as [p|]; [destruct openable|]; cbn [serial_port port_openable].
  - unfold serial_send_idle, bind at 1, gets. cbn [serial_status Z.eqb].
    unfold bind at 1.
    replace (setup_serial _)
      with (Ok tt, mkGUI kind baud (Some p) freq cached tact tint (Some true) 1
                     pts mt step true w fs) by reflexivity.
    unfold bind at 1, timer_stop, modify. unfold bind at 1.
    rewrite (serial_send_open (repeat 1500 8)) by reflexivity.
    reflexivity.
  - reflexivity.
  - reflexivity.
Qed.

Lemma idle_on_closed_link_witness :
  serial_send_idle Sample.idle_empty
  = (Ok tt,
     set_serial_status 0
       (set_serial_conn (Some false)
          (set_wire (wire Sample.idle_empty ++ [frame_of (repeat 1500 8)])
             (set_timer false (timer_interval Sample.idle_empty) Sample.idle_empty)))).
Proof.
  apply (idle_on_closed_link Sample.idle_empty). reflexivity.
Defined.

(** ** The status flag follows the port *)

Lemma link_ok_same (s s' : ThrusterGUI) :
  serial_status s' = serial_status s ->
  serial_conn s' = serial_conn s ->
  link_ok s -> link_ok s'.
Proof. unfold link_ok. intros -> ->. auto. Qed.

Lemma link_ok_closed (s : ThrusterGUI) : serial_status s = 0 -> link_ok s.
Proof. unfold link_ok. intros ->. split; [now left | discriminate]. Qed.

Lemma setup_serial_link (s s' : ThrusterGUI) (r : result unit) :
  setup_serial s = (r, s') -> link_ok s -> link_ok s'.
Proof.
  destruct s as [kind baud port freq cached tact tint conn status pts mt step
                 openable w fs].
  unfold link_ok. cbn [serial_status serial_conn].
  intros H [[-> | ->] Hc]; [|rewrite (Hc eq_refl) in H];
    destruct port as [p|]; try destruct openable;
    cbn in H; inversion H; subst; cbn [serial_status serial_conn];
    (split; [auto | intros; first [reflexivity | discriminate]]).
Qed.

Lemma serial_send_link (v : list Z) (s s' : ThrusterGUI) (r : result unit) :
  serial_send v s = (r, s') ->
  serial_status s' = serial_status s /\ serial_conn s' = serial_conn s.
Proof.
  intros H.
  apply serial_send_effect in H as [(_ & _ & d & ->) | (_ & ->)]; split; reflexivity.
Qed.

Lemma serial_send_idle_link (s s' : ThrusterGUI) (r : result unit) :
  serial_send_idle s = (r, s') -> link_ok s -> link_ok s'.
Proof.
  intros H Hlink. revert H.
  unfold serial_send_idle, bind at 1, gets. unfold bind at 1.
  destruct ((if serial_status s =? 0 then setup_serial else ret tt) s)
    as [r0 s0] eqn:H0.
  assert (Hlink0 : link_ok s0).
  { destruct (serial_status s =? 0).
    - eapply setup_serial_link; eauto.
    - inversion H0. now subst. }
  destruct r0 as [[]|e]; [|intros H; inversion H; now subst].
  unfold bind at 1, timer_stop, modify. unfold bind at 1.
  destruct (serial_send (repeat 1500 8) (set_timer false (timer_interval s0) s0))
    as [r1 s1] eqn:H1.
  apply serial_send_link in H1 as [Hs1 Hc1]. attrs.
  destruct r1 as [[]|e].
  - unfold bind, conn_close, modify.
    destruct (serial_conn s1) eqn:Hc; intros H; inversion H; subst.
    + now apply link_ok_closed.
    + apply (link_ok_same s0); congruence.
  - intros H. inversion H. subst. apply (link_ok_same s0); congruence.
Qed.

Lemma send_pwms_link (s s' : ThrusterGUI) (r : result unit) :
  send_pwms s = (r, s') -> link_ok s -> link_ok s'.
Proof.
  unfold send_pwms, bind at 1 2, gets.
  destruct (Z.of_nat (com_step s) <=? step_bound s).
  - unfold bind at 1, get_pwms, gets. unfold bind, modify.
    destruct (serial_send _ s) as [[[]|e] s1] eqn:H1;
      apply serial_send_link in H1 as [Hs Hc];
      intros H Hlink; inversion H; subst; apply (link_ok_same s); auto.
  - apply serial_send_idle_link.
Qed.

Lemma run_ticks_link (n : nat) (s : ThrusterGUI) :
  link_ok s -> link_ok (run_ticks n s).
Proof.
  revert s. induction n as [|n IH]; intros s Hlink; cbn [run_ticks]; [exact Hlink|].
  apply IH. unfold timer_event. destruct (timer_active s); [|exact Hlink].
  destruct (send_pwms s) as [r s'] eqn:H. cbn [snd].
  eapply send_pwms_link; eauto.
Qed.

Lemma change_frequency_link (g : Z) (s : ThrusterGUI) :
  link_ok s -> link_ok (snd (change_frequency g s)).
Proof.
  apply link_ok_same;
    unfold change_frequency, bind, modify, gets, floordiv, timer_start, raise, ret;
    attrs; destruct (timer_active s); attrs; try destruct (g =? 0); reflexivity.
Qed.

(** With the flag in step, [serial_send] never reaches a closed port: it can
    only refuse a wrong count or a link that is not open. *)
Lemma serial_send_raises_only (v : list Z) (s s' : ThrusterGUI) (e : exn) :
  link_ok s ->
  serial_send v s = (Raise e, s') ->
  e = ValueError \/ e = ConnectionError.
Proof.
  intros [_ Hc]. unfold serial_send.
  destruct (Nat.eqb (List.length v) 8) eqn:Hlen; cbn [negb].
  - apply Nat.eqb_eq in Hlen. unfold bind, lift, gets.
    rewrite (pack_8H_clamped v Hlen).
    destruct (serial_status s =? 1) eqn:Hs.
    + apply Z.eqb_eq in Hs.
      pose proof (CRCFacts.crc8_octet
                    (frame_header ++ flat_map Py.le_uint16 (map clamp_pwm v))) as [Hlo Hhi].
      unfold Py.pack_B.
      replace ((0 <=? _) && (_ <=? 255)) with true
        by (symmetry; apply andb_true_iff; split; lia).
      unfold conn_write. rewrite (Hc Hs). discriminate.
    + unfold raise. intros H. inversion H. now right.
  - unfold raise. intros H. inversion H. now left.
Qed.

Lemma keeps_bind {A B} (P : ThrusterGUI -> Prop) (m : M A) (k : A -> M B) :
  keeps P m -> (forall a, keeps P (k a)) -> keeps P (bind m k).
Proof.
  intros Hm Hk s r s'. unfold bind.
  destruct (m s) as [[a|e] s1] eqn:H1; intros H HP.
  - eapply Hk; eauto.
  - inversion H. subst. eapply Hm; eauto.
Qed.

Lemma keeps_ret {A} (P : ThrusterGUI -> Prop) (a : A) : keeps P (ret a).
Proof. intros s r s' H. inversion H. now subst. Qed.

Lemma keeps_raise {A} (P : ThrusterGUI -> Prop) (e : exn) : keeps P (@raise A e).
Proof. intros s r s' H. inversion H. now subst. Qed.

Lemma keeps_gets {A} (P : ThrusterGUI -> Prop) (f : ThrusterGUI -> A) : keeps P (gets f).
Proof. intros s r s' H. inversion H. now subst. Qed.

Lemma keeps_lift {A} (P : ThrusterGUI -> Prop) (x : result A) : keeps P (lift x).
Proof. intros s r s' H. inversion H. now subst. Qed.

Lemma keeps_modify (P : ThrusterGUI -> Prop) (f : ThrusterGUI -> ThrusterGUI) :
  (forall s, P s -> P (f s)) -> keeps P (modify f).
Proof. intros Hf s r s' H. inversion H. subst. auto. Qed.

Lemma keeps_for_each {A} (P : ThrusterGUI -> Prop) (body : A -> M unit) (xs : list A) :
  (forall x, keeps P (body x)) -> keeps P (for_each xs body).
Proof.
  intros Hbody s r s' H.
  exact (for_each_invariant P body Hbody xs s r s' H).
Qed.

Lemma conn_write_link (d : list Z) : keeps link_ok (conn_write d).
Proof.
  intros s r s'. unfold conn_write.
  destruct (serial_conn s) as [[|]|] eqn:E; intros H; inversion H; subst; auto.
Qed.

Section LinkFacts.

Variable interp1d : list Q -> list Z -> string -> result (Q -> npfloat).
Variable BarycentricInterpolator : list Q -> list Z -> result (Q -> npfloat).

Lemma compute_pwms_link :
  keeps link_ok (compute_pwms interp1d BarycentricInterpolator).
Proof.
  intros s r s' H. apply compute_pwms_frame in H as (m & c & ->).
  apply link_ok_same; reflexivity.
Qed.

Lemma serial_start_link (s s' : ThrusterGUI) (r : result unit) :
  serial_start interp1d BarycentricInterpolator s = (r, s') ->
  link_ok s -> link_ok s'.
Proof.
  revert s r s'. change (keeps link_ok (serial_start interp1d BarycentricInterpolator)).
  unfold serial_start.
  apply keeps_bind; [intros s0 r0 s0'; apply setup_serial_link | intros _].
  apply keeps_bind; [apply keeps_gets | intros status].
  apply keeps_bind;
    [destruct (status =? 0); [apply keeps_raise | apply keeps_ret] | intros _].
  apply keeps_bind; [exact compute_pwms_link | intros _].
  apply keeps_bind; [apply keeps_gets | intros status'].
  apply keeps_bind.
  { destruct (status' =? 1); [|apply keeps_ret].
    apply keeps_for_each. exact conn_write_link. }
  intros _.
  apply keeps_bind;
    [apply keeps_modify; intros st; apply link_ok_same; reflexivity | intros _].
  apply keeps_bind; [apply keeps_gets | intros f].
  apply keeps_bind.
  { unfold floordiv. destruct (f =? 0); [apply keeps_raise | apply keeps_ret]. }
  intros ms. apply keeps_modify. intros st. apply link_ok_same; reflexivity.
Qed.

(** X12. The status flag stays in step with the port object: if it is 0 or
    1, and 1 only while the port is open, then this still holds after
    [setup_serial], [serial_send], [serial_send_idle], [send_pwms],
    [change_frequency], [serial_start], [serial_start_stop] and any number
    of timer ticks, whether the call returns or raises.  So [serial_send]
    never writes to a closed port: the only exceptions it raises are
    [ValueError] (wrong count) and [ConnectionError] (flag not 1). *)
Theorem link_flag_invariant (s : ThrusterGUI) :
  link_ok s ->
  link_ok (snd (setup_serial s)) /\
  (forall v, link_ok (snd (serial_send v s))) /\
  link_ok (snd (serial_send_idle s)) /\
  link_ok (snd (send_pwms s)) /\
  (forall g, link_ok (snd (change_frequency g s))) /\
  link_ok (snd (serial_start interp1d BarycentricInterpolator s)) /\
  link_ok (snd (serial_start_stop interp1d BarycentricInterpolator s)) /\
  (forall n, link_ok (run_ticks n s)) /\
  (forall v e s', serial_send v s = (Raise e, s') ->
     e = ValueError \/ e = ConnectionError).
Proof.
  intros Hlink.
  split; [destruct (setup_serial s) eqn:H; eapply setup_serial_link; eauto|].
  split.
  { intros v. destruct (serial_send v s) as [r s'] eqn:H.
    apply serial_send_link in H as [Hs Hc]. now apply (link_ok_same s). }
  split; [destruct (serial_send_idle s) eqn:H; eapply serial_send_idle_link; eauto|].
  split; [destruct (send_pwms s) eqn:H; eapply send_pwms_link; eauto|].
  split; [intros g; now apply change_frequency_link|].
  split.
  { destruct (serial_start interp1d BarycentricInterpolator s) eqn:H.
    eapply serial_start_link; eauto. }
  split.
  { unfold serial_start_stop, bind, gets. destruct (serial_status s =? 1).
    - destruct (serial_send_idle s) eqn:H; eapply serial_send_idle_link; eauto.
    - destruct (serial_start interp1d BarycentricInterpolator s) eqn:H.
      eapply serial_start_link; eauto. }
  split; [intros n; now apply run_ticks_link|].
  intros v e s'. now apply serial_send_raises_only.
Qed.

End LinkFacts.

Lemma link_flag_invariant_witness :
  link_ok Sample.idle_empty /\
  link_ok (snd (serial_start Sample.interp1d Sample.BarycentricInterpolator
                  Sample.idle_empty)) /\
  forall n, link_ok (run_ticks n Sample.idle_empty).
Proof.
  assert (H : link_ok Sample.idle_empty)
    by (split; [left; reflexivity | intros H; discriminate H]).
  pose proof (link_flag_invariant Sample.interp1d Sample.BarycentricInterpolator
                Sample.idle_empty H) as K.
  split; [exact H|]. split; [apply K | apply K].
Defined.

(** ** Removing a waypoint *)

Module WaypointFacts.
Import Waypoints.

Lemma delitem_removes {A} (l : list A) (j : nat) :
  (j < List.length l)%nat ->
  delitem l j = Ok (firstn j l ++ skipn (S j) l).
Proof.
  revert j. induction l as [|x l IH]; intros j Hj; [simpl in Hj; lia|].
  destruct j as [|j]; cbn [delitem firstn skipn app]; [reflexivity|].
  rewrite IH by (simpl in Hj; lia). reflexivity.
Qed.

(** [index] finds the first position with the given text, which is the
    chosen position or one before it. *)
Lemma first_index_found (labels : list string) (c : nat) (x : string) :
  nth_error labels c = Some x ->
  exists j, first_index labels x = Ok j /\ (j <= c)%nat /\
            nth_error labels j = Some x /\
            forall i, (i < j)%nat -> nth_error labels i <> Some x.
Proof.
  revert c. induction labels as [|l labels IH]; intros c Hc;
    [destruct c; discriminate|].
  cbn [first_index]. destruct (String.eqb l x) eqn:E.
  - apply String.eqb_eq in E. subst. exists 0%nat.
    repeat split; [lia | intros i Hi; lia].
  - apply String.eqb_neq in E. destruct c as [|c]; [cbn in Hc; congruence|].
    destruct (IH c Hc) as (j & -> & Hle & Hj & Hmin).
    exists (S j). repeat split; [lia | exact Hj |].
    intros [|i] Hi; cbn [nth_error]; [congruence | apply Hmin; lia].
Qed.

Lemma first_index_distinct (labels : list string) (c : nat) (x : string) :
  NoDup labels -> nth_error labels c = Some x -> first_index labels x = Ok c.
Proof.
  intros Hnd Hc. destruct (first_index_found labels c x Hc) as (j & Hj & Hle & Hn & _).
  rewrite Hj. f_equal.
  apply (proj1 (NoDup_nth_error labels) Hnd).
  - apply nth_error_Some. congruence.
  - congruence.
Qed.

End WaypointFacts.

Section DialogFacts.

Variable point_label : waypoint -> string.

Lemma selected_index_found (ch : list waypoint) (c : nat) :
  (c < List.length ch)%nat ->
  exists j, Waypoints.selected_index point_label ch c = Ok j /\
            (j <= c)%nat /\
            option_map point_label (nth_error ch j)
            = option_map point_label (nth_error ch c) /\
            (forall i, (i < j)%nat ->
               option_map point_label (nth_error ch i)
               <> option_map point_label (nth_error ch c)) /\
            (NoDup (map point_label ch) -> j = c).
Proof.
  intros Hc. unfold Waypoints.selected_index, getitem.
  destruct (nth_error ch c) as [w|] eqn:Hw; [|apply nth_error_None in Hw; lia].
  assert (Hl : nth_error (map point_label ch) c = Some (point_label w))
    by (rewrite nth_error_map, Hw; reflexivity).
  rewrite Hl.
  destruct (WaypointFacts.first_index_found _ _ _ Hl) as (j & Hj & Hle & Hn & Hmin).
  exists j. split; [exact Hj|]. split; [exact Hle|].
  rewrite nth_error_map in Hn. split; [exact Hn|]. split.
  - intros i Hi. specialize (Hmin i Hi). now rewrite nth_error_map in Hmin.
  - intros Hnd. rewrite (WaypointFacts.first_index_distinct _ _ _ Hnd Hl) in Hj.
    congruence.
Qed.

(** X14. Removing from thruster [n] the waypoint picked at position [c] of
    the list dialog deletes exactly one waypoint of that channel: the first
    one whose label is the label of the picked one.  That is the picked
    waypoint when the labels of the channel are all different, and an
    earlier one otherwise.  The other channels are untouched. *)
Theorem remove_point_deletes_first_match (s : ThrusterGUI) (n c : nat)
    (ch : list waypoint) :
  (1 <= n <= 8)%nat ->
  List.length (points s) = 8%nat ->
  nth_error (points s) (n - 1) = Some ch ->
  (c < List.length ch)%nat ->
  exists (j : nat) (pts' : list (list waypoint)),
    Waypoints.remove_point_dialog point_label (Some n) (Some c) s
    = (Ok tt, set_points pts' s) /\
    nth_error pts' (n - 1) = Some (firstn j ch ++ skipn (S j) ch) /\
    (forall i, i <> (n - 1)%nat -> nth_error pts' i = nth_error (points s) i) /\
    (j <= c)%nat /\
    option_map point_label (nth_error ch j) = option_map point_label (nth_error ch c) /\
    (forall i, (i < j)%nat ->
       option_map point_label (nth_error ch i)
       <> option_map point_label (nth_error ch c)) /\
    (NoDup (map point_label ch) -> j = c).
Proof.
  intros Hn Hlen Hch Hc.
  assert (Hidx : Waypoints.channel_index n (List.length (points s)) = (n - 1)%nat)
    by (destruct n; [lia | cbn; lia]).
  destruct (selected_index_found ch c Hc) as (j & Hj & Hle & Hlab & Hmin & Hnd).
  destruct (setitem_in_range (points s) (n - 1) (firstn j ch ++ skipn (S j) ch))
    as [pts' Hset]; [lia|].
  destruct (setitem_result _ _ _ _ Hset) as (_ & Hi & Hother).
  exists j, pts'. split.
  - unfold Waypoints.remove_point_dialog, bind, gets, lift, modify, getitem.
    rewrite Hidx, Hch. destruct ch as [|w ch]; [simpl in Hc; lia|].
    rewrite Hj, WaypointFacts.delitem_removes by lia. rewrite Hset. reflexivity.
  - auto 10.
Qed.

End DialogFacts.

Lemma remove_point_deletes_first_match_witness :
  exists (j : nat) (pts' : list (list waypoint)),
    Waypoints.remove_point_dialog SampleDialog.coarse_label (Some 1%nat) (Some 1%nat)
      SampleDialog.two_alike
    = (Ok tt, set_points pts' SampleDialog.two_alike) /\
    nth_error pts' (1 - 1)
    = Some (firstn j [(0%Q, 1500); (1%Q, 1600)] ++ skipn (S j) [(0%Q, 1500); (1%Q, 1600)]) /\
    (j <= 1)%nat.
Proof.
  destruct (remove_point_deletes_first_match SampleDialog.coarse_label
              SampleDialog.two_alike 1 1 [(0%Q, 1500); (1%Q, 1600)])
    as (j & pts' & Hrun & Hch & _ & Hle & _).
  - lia.
  - reflexivity.
  - reflexivity.
  - cbn. lia.
  - exists j, pts'. auto.
Defined.

(** With the coarse labels the second waypoint is picked and the first one
    goes. *)
Example remove_point_alike :
  points (snd (Waypoints.remove_point_dialog SampleDialog.coarse_label
                 (Some 1%nat) (Some 1%nat) SampleDialog.two_alike))
  = [(1%Q, 1600)] :: repeat [] 7.
Proof. reflexivity. Qed.

(** ** Saving and loading a sequence *)

Lemma thruster_dict_get (pts : list (list waypoint))
    (d : list (string * list waypoint)) (i : nat) (p : list waypoint) :
  List.length pts = 8%nat ->
  thruster_dict pts (seq 0 THRUSTER_COUNT) = Ok d ->
  nth_error pts i = Some p ->
  Py.dict_get d (Py.str i) [] = p.
Proof.
  intros Hlen Hd Hp.
  destruct pts as [|p0 [|p1 [|p2 [|p3 [|p4 [|p5 [|p6 [|p7 [|? ?]]]]]]]]];
    try discriminate Hlen.
  cbn in Hd. inversion Hd. subst d.
  do 8 (destruct i as [|i]; [cbn in Hp |- *; congruence|]).
  destruct i; discriminate Hp.
Qed.

Lemma thruster_dict_built (pts : list (list waypoint)) :
  List.length pts = 8%nat ->
  exists d, thruster_dict pts (seq 0 THRUSTER_COUNT) = Ok d.
Proof.
  intros Hlen.
  destruct pts as [|p0 [|p1 [|p2 [|p3 [|p4 [|p5 [|p6 [|p7 [|? ?]]]]]]]]];
    try discriminate Hlen.
  eexists. reflexivity.
Qed.

Lemma nth_error_ext {A} (l l' : list A) :
  List.length l = List.length l' ->
  (forall i, (i < List.length l)%nat -> nth_error l i = nth_error l' i) ->
  l = l'.
Proof.
  revert l'. induction l as [|x l IH]; intros [|y l'] Hlen H; try discriminate.
  - reflexivity.
  - pose proof (H 0%nat ltac:(simpl; lia)) as H0. cbn in H0. inversion H0. subst.
    f_equal. apply IH; [simpl in Hlen; lia|].
    intros i Hi. apply (H (S i)). simpl. lia.
Qed.

Section LoadFacts.

Variable interp1d : list Q -> list Z -> string -> result (Q -> npfloat).
Variable BarycentricInterpolator : list Q -> list Z -> result (Q -> npfloat).

(** [interpolate_thruster_curve] on a channel whose curve scipy builds. *)
Lemma interpolate_thruster_curve_runs (i : nat) (s : ThrusterGUI)
    (p : list waypoint) (f : Q -> npfloat) :
  List.length (points s) = 8%nat ->
  nth_error (points s) i = Some p ->
  p <> [] ->
  select_curve interp1d BarycentricInterpolator (selected_interpolation s)
    (map fst p) (map snd p) = Ok (Some f) ->
  0 <= output_frequency s ->
  exists m, interpolate_thruster_curve interp1d BarycentricInterpolator i s
            = (Ok tt, set_max_time m s).
Proof.
  intros Hlen Hp Hne Hsel Hf.
  exists (fold_left max_time_step (points s) 0%Q).
  unfold interpolate_thruster_curve, bind at 1 2 3 4 5, gets, lift, getitem.
  rewrite Hp. destruct p as [|w p]; [congruence|].
  cbn [Py.unzip_points fst snd]. rewrite Hsel.
  unfold bind at 1. rewrite (compute_max_time_fold s Hlen).
  destruct (fold_max_time_step_facts (points s) 0%Q) as (Hm0 & _ & _).
  destruct (sample_times_runs (set_max_time (fold_left max_time_step (points s) 0%Q) s))
    as (ts & Hts & _); [exact Hm0 | exact Hf |].
  unfold bind. rewrite Hts. reflexivity.
Qed.

(** An empty channel, or a mode that selects no builder, ends
    [interpolate_thruster_curve] in an exception; only [max_time] can have
    changed. *)
Lemma interpolate_thruster_curve_touches (i : nat) (s s' : ThrusterGUI)
    (r : result unit) :
  interpolate_thruster_curve interp1d BarycentricInterpolator i s = (r, s') ->
  s' = s \/ exists m, s' = set_max_time m s.
Proof.
  unfold interpolate_thruster_curve, bind at 1 2 3 4 5, gets, lift.
  destruct (getitem (points s) i) as [p|e]; [|intros H; inversion H; auto].
  destruct (Py.unzip_points p) as [tp|e]; [|intros H; inversion H; auto].
  destruct (select_curve _ _ _ _ _) as [f|e]; [|intros H; inversion H; auto].
  unfold bind at 1. destruct (compute_max_time s) as [r1 s1] eqn:H1.
  apply compute_max_time_touches in H1 as [m ->].
  destruct r1 as [[]|e]; [|intros H; inversion H; eauto].
  unfold sample_times, bind, gets, lift, raise, ret.
  destruct (Py.linspace _ _ _); [destruct f|]; intros H; inversion H; eauto.
Qed.

End LoadFacts.

Section RoundTrip.

Variable interp1d : list Q -> list Z -> string -> result (Q -> npfloat).
Variable BarycentricInterpolator : list Q -> list Z -> result (Q -> npfloat).

(** The loop of [json_load_sequence] on channels whose curves scipy builds:
    each pass assigns one channel from the file. *)
Lemma load_loop_restores (s : ThrusterGUI) (d : list (string * list waypoint)) :
  List.length (points s) = 8%nat ->
  0 <= output_frequency s ->
  thruster_dict (points s) (seq 0 THRUSTER_COUNT) = Ok d ->
  (forall p, In p (points s) ->
     p <> [] /\
     exists f, select_curve interp1d BarycentricInterpolator
                 (selected_interpolation s) (map fst p) (map snd p)
               = Ok (Some f)) ->
  forall (chans : list nat) (st : ThrusterGUI),
    (forall i, In i chans -> (i < 8)%nat) ->
    selected_interpolation st = selected_interpolation s ->
    output_frequency st = output_frequency s ->
    List.length (points st) = 8%nat ->
    exists st',
      for_each chans
        (fun i =>
           d <- lift (Ok d) ;;
           pts <- gets points ;;
           pts' <- lift (setitem pts i (Py.dict_get d (Py.str i) [])) ;;
           modify (set_points pts') ;;;
           interpolate_thruster_curve interp1d BarycentricInterpolator i) st
      = (Ok tt, st') /\
      selected_interpolation st' = selected_interpolation s /\
      output_frequency st' = output_frequency s /\
      List.length (points st') = 8%nat /\
      (forall i, In i chans -> nth_error (points st') i = nth_error (points s) i) /\
      (forall i, nth_error (points st) i = nth_error (points s) i ->
                 nth_error (points st') i = nth_error (points s) i).
Proof.
  intros Hlen Hfreq Hd Hbuild chans.
  induction chans as [|j chans IH]; intros st Hin Hkind Hf Hlen'.
  - exists st. cbn [for_each]. repeat split; auto. intros i [].
  - assert (Hj : (j < 8)%nat) by (apply Hin; now left).
    destruct (nth_error (points s) j) as [p|] eqn:Hp;
      [|apply nth_error_None in Hp; lia].
    destruct (Hbuild p (nth_error_In _ _ Hp)) as (Hne & f & Hsel).
    pose proof (thruster_dict_get _ _ _ _ Hlen Hd Hp) as Hget.
    destruct (setitem_in_range (points st) j p) as [pts' Hset]; [lia|].
    destruct (setitem_result _ _ _ _ Hset) as (Hlen1 & Hj1 & Hother).
    destruct (interpolate_thruster_curve_runs interp1d BarycentricInterpolator
                j (set_points pts' st) p f) as [m Hrun]; attrs;
      try congruence; try (now rewrite Hkind).
    destruct (IH (set_max_time m (set_points pts' st)))
      as (st' & Hloop & Hk' & Hf' & Hl' & Hall & Hkeep); attrs;
      try congruence; [intros i Hi; apply Hin; now right|].
    exists st'. split.
    + cbn [for_each]. unfold bind at 1. unfold bind at 1, lift at 1.
      unfold bind at 1, gets. unfold bind at 1, lift. rewrite Hget, Hset.
      unfold bind at 1, modify. rewrite Hrun. exact Hloop.
    + split; [exact Hk'|]. split; [exact Hf'|]. split; [exact Hl'|]. split.
      * intros i [<-|Hi]; [|now apply Hall].
        apply Hkeep. attrs. congruence.
      * intros i Hi. apply Hkeep. attrs.
        destruct (Nat.eq_dec i j) as [->|Hne']; [congruence|].
        now rewrite Hother.
Qed.

(** X16. A sequence in which every channel has a waypoint and scipy builds
    every curve, saved by one controller and loaded by another (with its
    eight channels, whatever they hold), comes back whole: the loading
    controller ends with the saved waypoint lists on all eight channels, the
    saved interpolation mode and the saved frequency. *)
Theorem save_then_load_restores (s l : ThrusterGUI) (path : string) :
  path <> ""%string ->
  List.length (points s) = 8%nat ->
  List.length (points l) = 8%nat ->
  0 <= output_frequency s ->
  (forall p, In p (points s) ->
     p <> [] /\
     exists f, select_curve interp1d BarycentricInterpolator
                 (selected_interpolation s) (map fst p) (map snd p)
               = Ok (Some f)) ->
  files l = files (snd (json_save_sequence path s)) ->
  exists l' : ThrusterGUI,
    json_load_sequence interp1d BarycentricInterpolator path l = (Ok tt, l') /\
    points l' = points s /\
    selected_interpolation l' = selected_interpolation s /\
    output_frequency l' = output_frequency s.
Proof.
  intros Hpath Hlen Hlenl Hfreq Hbuild Hfiles.
  apply String.eqb_neq in Hpath.
  destruct (thruster_dict_built (points s) Hlen) as [d Hd].
  assert (Hsaved : files l
                   = (path, mkSnapshot (Some (selected_interpolation s))
                              (Some (output_frequency s)) (Some d)) :: files s).
  { rewrite Hfiles. unfold json_save_sequence. rewrite Hpath.
    unfold bind, gets, lift, modify. rewrite Hd. reflexivity. }
  set (l0 := set_output_frequency (output_frequency s)
               (set_selected_interpolation (selected_interpolation s) l)).
  destruct (load_loop_restores s d Hlen Hfreq Hd Hbuild (seq 0 8) l0)
    as (l' & Hloop & Hk & Hf & Hl & Hall & _); try reflexivity;
    [intros i Hi; apply in_seq in Hi; lia | exact Hlenl |].
  exists l'. split.
  - unfold json_load_sequence. rewrite Hpath.
    unfold try_except, bind at 1, gets. rewrite Hsaved.
    unfold bind at 1, lift at 1. cbn [read_file]. rewrite String.eqb_refl.
    unfold load_data. cbn [interpolation_method frequency thruster_data].
    unfold bind at 1, modify at 1. unfold bind at 1, modify at 1.
    fold l0. unfold THRUSTER_COUNT. rewrite Hloop. reflexivity.
  - split; [|split; assumption].
    apply nth_error_ext; [congruence|].
    intros i Hi. apply Hall. apply in_seq. lia.
Qed.

(** X17. What [json_load_sequence] does with a file it cannot use.  A path
    that names no file changes nothing.  A file without [thruster_data]
    still overwrites the mode and the frequency (with "linear" and 20 where
    the file has none) and leaves the waypoints as they were.  Neither case
    raises: the exception is swallowed. *)
Theorem load_unusable_file (s : ThrusterGUI) (path : string) :
  path <> ""%string ->
  (read_file (files s) path = Raise FileNotFoundError ->
   json_load_sequence interp1d BarycentricInterpolator path s = (Ok tt, s)) /\
  (forall data : snapshot,
     read_file (files s) path = Ok data ->
     thruster_data data = None ->
     json_load_sequence interp1d BarycentricInterpolator path s
     = (Ok tt,
        set_output_frequency
          (match frequency data with Some f => f | None => 20 end)
          (set_selected_interpolation
             (match interpolation_method data with Some k => k | None => "linear"%string end)
             s))).
Proof.
  intros Hpath. apply String.eqb_neq in Hpath.
  unfold json_load_sequence. rewrite Hpath. split.
  - intros Hread. unfold try_except, bind, gets, lift. rewrite Hread. reflexivity.
  - intros data Hread Hnone.
    unfold try_except, bind at 1, gets. unfold bind at 1, lift at 1. rewrite Hread.
    unfold load_data. rewrite Hnone.
    unfold bind at 1, modify at 1. unfold bind at 1, modify at 1.
    reflexivity.
Qed.

(** X18. [change_interpolation] with a name that is not in the combo box
    raises [KeyError] and changes nothing.  With one of the three names it
    stores the mode first, so when some channel has no waypoint the call
    still ends in an exception, but the new mode stays selected and the
    waypoints are as before. *)
Theorem change_interpolation_outcome (s : ThrusterGUI) (method : string) :
  (find (fun kv => String.eqb (fst kv) method) interpolation_methods = None ->
   change_interpolation interp1d BarycentricInterpolator method s
   = (Raise KeyError, s)) /\
  (forall (kv : string * string) (i : nat),
     find (fun kv => String.eqb (fst kv) method) interpolation_methods = Some kv ->
     (i < 8)%nat ->
     nth_error (points s) i = Some [] ->
     exists (e : exn) (s' : ThrusterGUI),
       change_interpolation interp1d BarycentricInterpolator method s = (Raise e, s') /\
       selected_interpolation s' = snd kv /\
       points s' = points s).
Proof.
  unfold change_interpolation. split.
  - intros ->. reflexivity.
  - intros kv i -> Hi Hempty. unfold bind at 1, modify at 1.
    set (s0 := set_selected_interpolation (snd kv) s).
    destruct (for_each (seq 0 THRUSTER_COUNT)
                (interpolate_thruster_curve interp1d BarycentricInterpolator) s0)
      as [r s'] eqn:Hrun.
    assert (Hkeep : forall x st r st',
               interpolate_thruster_curve interp1d BarycentricInterpolator x st = (r, st') ->
               selected_interpolation st = snd kv /\ points st = points s ->
               selected_interpolation st' = snd kv /\ points st' = points s).
    { intros x st r' st' Hx HP.
      apply interpolate_thruster_curve_touches in Hx as [-> | [m ->]]; exact HP. }
    pose proof (for_each_invariant
                  (fun st => selected_interpolation st = snd kv /\ points st = points s)
                  _ Hkeep _ _ _ _ Hrun (conj eq_refl eq_refl)) as [Hk Hp].
    destruct (for_each_raises
                (fun st => selected_interpolation st = snd kv /\ points st = points s)
                (interpolate_thruster_curve interp1d BarycentricInterpolator) i
                Hkeep) with (xs := seq 0 THRUSTER_COUNT) (s := s0)
      as (e & s'' & Hraise).
    + intros st [_ HP]. exists ValueError, st.
      unfold interpolate_thruster_curve, bind, gets, lift, getitem.
      rewrite HP, Hempty. reflexivity.
    + apply in_seq. unfold THRUSTER_COUNT. lia.
    + split; reflexivity.
    + rewrite Hraise in Hrun. inversion Hrun. subst. eauto.
Qed.

End RoundTrip.

Lemma save_then_load_restores_witness :
  let saved := SampleDialog.single_idle in
  let loader := init true (files (snd (json_save_sequence "sequence.json" saved))) in
  exists l' : ThrusterGUI,
    json_load_sequence Sample.interp1d Sample.BarycentricInterpolator
      "sequence.json" loader = (Ok tt, l') /\
    points l' = points saved /\
    selected_interpolation l' = selected_interpolation saved /\
    output_frequency l' = output_frequency saved.
Proof.
  intros saved loader.
  apply (save_then_load_restores Sample.interp1d Sample.BarycentricInterpolator
           saved loader "sequence.json").
  - discriminate.
  - reflexivity.
  - reflexivity.
  - vm_compute. discriminate.
  - intros p Hp. cbn in Hp.
    repeat (destruct Hp as [<-|Hp]; [split; [discriminate | eexists; reflexivity]|]).
    contradiction.
  - reflexivity.
Defined.

Lemma load_unusable_file_witness :
  json_load_sequence Sample.interp1d Sample.BarycentricInterpolator
    "missing.json" Sample.idle_empty = (Ok tt, Sample.idle_empty)
  /\
  json_load_sequence Sample.interp1d Sample.BarycentricInterpolator "mode.json"
    (set_files [("mode.json"%string, mkSnapshot (Some "constant"%string) None None)]
       Sample.idle_empty)
  = (Ok tt,
     set_output_frequency 20
       (set_selected_interpolation "constant"
          (set_files [("mode.json"%string, mkSnapshot (Some "constant"%string) None None)]
             Sample.idle_empty))).
Proof.
  split.
  - apply (proj1 (load_unusable_file Sample.interp1d Sample.BarycentricInterpolator
                    Sample.idle_empty "missing.json" ltac:(discriminate))).
    reflexivity.
  - apply (proj2 (load_unusable_file Sample.interp1d Sample.BarycentricInterpolator
                    (set_files [("mode.json"%string,
                                 mkSnapshot (Some "constant"%string) None None)]
                       Sample.idle_empty)
                    "mode.json" ltac:(discriminate))
             (mkSnapshot (Some "constant"%string) None None));
      reflexivity.
Defined.

Lemma change_interpolation_outcome_witness :
  change_interpolation Sample.interp1d Sample.BarycentricInterpolator
    "Cubic" Sample.idle_empty = (Raise KeyError, Sample.idle_empty)
  /\
  exists (e : exn) (s' : ThrusterGUI),
    change_interpolation Sample.interp1d Sample.BarycentricInterpolator
      "Constant" Sample.idle_empty = (Raise e, s') /\
    selected_interpolation s' = "constant"%string /\
    points s' = points Sample.idle_empty.
Proof.
  split.
  - apply (proj1 (change_interpolation_outcome Sample.interp1d
                    Sample.BarycentricInterpolator Sample.idle_empty "Cubic")).
    reflexivity.
  - apply (proj2 (change_interpolation_outcome Sample.interp1d
                    Sample.BarycentricInterpolator Sample.idle_empty "Constant")
             ("Constant"%string, "constant"%string) 0%nat).
    + reflexivity.
    + lia.
    + reflexivity.
Defined.

(** ** The thruster selection dialog *)

Lemma get_checked_filter (checkboxes : list bool) :
  List.length checkboxes = 8%nat ->
  get_checked checkboxes
  = Ok (filter (fun i => nth i checkboxes false) (seq 0 8)).
Proof.
  intros Hlen.
  destruct checkboxes as [|b0 [|b1 [|b2 [|b3 [|b4 [|b5 [|b6 [|b7 [|? ?]]]]]]]]];
    try discriminate Hlen.
  destruct b0, b1, b2, b3, b4, b5, b6, b7; reflexivity.
Qed.

Lemma seq_strongly_sorted (a n : nat) : StronglySorted lt (seq a n).
Proof.
  revert a. induction n as [|n IH]; intros a; cbn [seq]; constructor.
  - apply IH.
  - apply Forall_forall. intros x Hx. apply in_seq in Hx. lia.
Qed.

Lemma filter_strongly_sorted {A} (R : A -> A -> Prop) (f : A -> bool) (l : list A) :
  StronglySorted R l -> StronglySorted R (filter f l).
Proof.
  induction 1 as [|x l Hl IH Hx]; cbn [filter]; [constructor|].
  destruct (f x); [|exact IH]. constructor; [exact IH|].
  apply Forall_forall. intros y Hy. apply filter_In in Hy as [Hy _].
  exact (proj1 (Forall_forall _ _) Hx y Hy).
Qed.

(** X19. [get_checked] on the eight check boxes returns the indices of the
    boxes that are checked, each once, in increasing order. *)
Theorem get_checked_selection (checkboxes : list bool) :
  List.length checkboxes = 8%nat ->
  exists l : list nat,
    get_checked checkboxes = Ok l /\
    (forall i, In i l <-> nth_error checkboxes i = Some true) /\
    StronglySorted lt l.
Proof.
  intros Hlen. exists (filter (fun i => nth i checkboxes false) (seq 0 8)).
  split; [now apply get_checked_filter|]. split.
  - intros i. rewrite filter_In, in_seq. split.
    + intros [Hi Hb]. rewrite (nth_error_nth' checkboxes false) by lia.
      now rewrite Hb.
    + intros Hi. assert (i < 8)%nat by (rewrite <- Hlen; apply nth_error_Some; congruence).
      split; [lia|]. now rewrite (nth_error_nth _ _ false Hi).
  - apply filter_strongly_sorted, seq_strongly_sorted.
Qed.

Lemma get_checked_selection_witness :
  exists l : list nat,
    get_checked [true; false; false; true; false; false; false; true] = Ok l /\
    (forall i, In i l
               <-> nth_error [true; false; false; true; false; false; false; true] i
                   = Some true) /\
    StronglySorted lt l.
Proof.
  apply (get_checked_selection [true; false; false; true; false; false; false; true]).
  reflexivity.
Defined.
